(** * greeclimate: the device facade and the session protocol

    A shallow embedding of [greeclimate/device.py] (the [Device] class with
    its cached property map) together with a model of the protocol layer it
    talks to (codec, bind, request_state, send_state).

    Python objects are modelled as follows:
    - JSON-like values ([None], booleans, integers, strings, lists, dicts)
      are the inductive type [json]; floating point numbers are left out;
    - a [dict] is an association list in insertion order with unique keys,
      read with [dict_get] and written with [dict_set];
    - a method of [Device] is a function in the monad [M], which threads the
      device object, the state of the network and the log of calls made
      into [network_helper], and which keeps every mutation made before an
      exception was raised. *)

From Stdlib Require Import List String Ascii ZArith NArith Bool Arith Lia.
From Stdlib.Strings Require Import Byte.
From Stdlib Require DecimalZ DecimalPos DecimalFacts.
From Stdlib.Lists Require Finite.
Import ListNotations.
Open Scope string_scope.
Open Scope list_scope.
#[local] Set Warnings "-register-all".


(* ================================================================== *)
(** * Python values *)
(* ================================================================== *)

Module Py.

(** The values that travel in payloads and sit in the property cache.
    [JNull] is Python's [None]. Floating point numbers are not among them;
    a statement that needs a value to be equal to itself under [==], which
    NaN is not, asks for it in a hypothesis. *)
Inductive json : Type :=
| JNull
| JBool (b : bool)
| JNum (n : Z)
| JStr (s : string)
| JArr (items : list json)
| JObj (fields : list (string * json)).

(** The exceptions that the modelled code raises or lets through. *)
Inductive exn : Type :=
| DeviceNotBoundError
| TypeError
| ValueError
| TimeoutError
| DecryptionError
| ProtocolError
| TransportError.

(** The outcome of a call: a returned value or a raised exception. *)
Inductive result (A : Type) : Type :=
| Return (a : A)
| Raise (e : exn).
Arguments Return {A} a.
Arguments Raise {A} e.

(** ** Dictionaries *)

(** A Python [dict] with string keys: the pairs in insertion order. *)
Definition dict (V : Type) : Type := list (string * V).

(** [d.get(k)] without the default: [None] stands for a missing key. *)
Fixpoint dict_get {V} (d : dict V) (k : string) : option V :=
  match d with
  | [] => None
  | (k', v) :: d' => if String.eqb k' k then Some v else dict_get d' k
  end.

(** [d[k] = v]: an existing key keeps its position, a new key goes last. *)
Fixpoint dict_set {V} (d : dict V) (k : string) (v : V) : dict V :=
  match d with
  | [] => [(k, v)]
  | (k', v') :: d' =>
      if String.eqb k' k then (k', v) :: d' else (k', v') :: dict_set d' k v
  end.

Definition dict_keys {V} (d : dict V) : list string := map fst d.
Definition dict_values {V} (d : dict V) : list V := map snd d.

(** [dict(pairs)]: the pairs are inserted from left to right, so a repeated
    key keeps its first position and its last value. *)
Definition dict_of_pairs {V} (pairs : list (string * V)) : dict V :=
  fold_left (fun d kv => dict_set d (fst kv) (snd kv)) pairs [].

(** [dict(zip(names, values))]. [combine] stops at the shorter list, as
    Python's [zip] does. *)
Definition dict_zip {V} (names : list string) (values : list V) : dict V :=
  dict_of_pairs (combine names values).

(** ** Equality, truth value and [int()] *)

(** Python's [a == b] on JSON-like values. [True == 1] and [False == 0]
    hold, lists compare item by item, dicts compare without regard to the
    order of their keys. *)
Fixpoint py_eq (a b : json) : bool :=
  match a, b with
  | JNull, JNull => true
  | JBool x, JBool y => Bool.eqb x y
  | JBool x, JNum n => Z.eqb (if x then 1 else 0) n
  | JNum n, JBool y => Z.eqb n (if y then 1 else 0)
  | JNum n, JNum m => Z.eqb n m
  | JStr s, JStr t => String.eqb s t
  | JArr xs, JArr ys =>
      (fix items (xs ys : list json) : bool :=
         match xs, ys with
         | [], [] => true
         | x :: xs', y :: ys' => py_eq x y && items xs' ys'
         | _, _ => false
         end) xs ys
  | JObj f, JObj g =>
      Nat.eqb (List.length f) (List.length g) &&
      (fix members (f : list (string * json)) : bool :=
         match f with
         | [] => true
         | (k, v) :: f' =>
             match dict_get g k with
             | Some w => py_eq v w && members f'
             | None => false
             end
         end) f
  | _, _ => false
  end.

(** Python's [bool(v)]. *)
Definition py_bool (v : json) : bool :=
  match v with
  | JNull => false
  | JBool b => b
  | JNum n => negb (Z.eqb n 0)
  | JStr s => negb (String.eqb s "")
  | JArr items => match items with [] => false | _ => true end
  | JObj fields => match fields with [] => false | _ => true end
  end.

(** The white space that [int()] skips at both ends of a string: the six
    ASCII characters tab, line feed, vertical tab, form feed, carriage
    return and space and, of the characters above them, the two that count
    as white space, U+0085 and U+00A0. The separators U+001C to U+001F are
    white space for [str.isspace] but are not skipped by [int()]. *)
Definition is_space (c : ascii) : bool :=
  let n := nat_of_ascii c in
  ((9 <=? n)%nat && (n <=? 13)%nat)
  || (n =? 32)%nat || (n =? 133)%nat || (n =? 160)%nat.

Definition digit_value (c : ascii) : option Z :=
  let n := nat_of_ascii c in
  if ((48 <=? n)%nat && (n <=? 57)%nat)%bool
  then Some (Z.of_nat (n - 48)) else None.

Fixpoint drop_spaces (s : list ascii) : list ascii :=
  match s with
  | c :: s' => if is_space c then drop_spaces s' else s
  | [] => []
  end.

Definition strip (s : list ascii) : list ascii :=
  rev (drop_spaces (rev (drop_spaces s))).

(** Decimal digits, with single underscores allowed between two digits.
    [after_digit] tells whether the previous character was a digit, [acc] is
    the value read so far. *)
Fixpoint int_digits (s : list ascii) (after_digit : bool) (acc : Z) : option Z :=
  match s with
  | [] => if after_digit then Some acc else None
  | c :: s' =>
      match digit_value c with
      | Some d => int_digits s' true (10 * acc + d)
      | None =>
          if Ascii.eqb c "_" && after_digit
          then int_digits s' false acc
          else None
      end
  end.

(** The most decimal digits that [int()] converts, as the interpreter
    starts ([sys.int_info.default_max_str_digits]). *)
Definition MAX_STR_DIGITS : nat := 4300.

Definition is_digit (c : ascii) : bool :=
  match digit_value c with
  | Some _ => true
  | None => false
  end.

(** The digits of a numeral, leading zeros included, underscores not. *)
Definition digit_count (s : list ascii) : nat :=
  List.length (filter is_digit s).

(** A numeral without its sign: [None] when it is not well formed or holds
    more than [MAX_STR_DIGITS] digits. *)
Definition int_unsigned (ds : list ascii) : option Z :=
  if (digit_count ds <=? MAX_STR_DIGITS)%nat
  then int_digits ds false 0
  else None.

(** [int(s)] for a string [s], base ten; [None] stands for the
    [ValueError] that [int()] raises. *)
Definition int_of_str (s : string) : option Z :=
  match strip (list_ascii_of_string s) with
  | "-"%char :: ds => option_map Z.opp (int_unsigned ds)
  | "+"%char :: ds => int_unsigned ds
  | ds => int_unsigned ds
  end.

(** Python's [int(v)]: [TypeError] for [None], lists and dicts,
    [ValueError] for a string that is not a number. *)
Definition py_int (v : json) : result Z :=
  match v with
  | JNull => Raise TypeError
  | JBool b => Return (if b then 1 else 0)%Z
  | JNum n => Return n
  | JStr s => match int_of_str s with
              | Some n => Return n
              | None => Raise ValueError
              end
  | JArr _ => Raise TypeError
  | JObj _ => Raise TypeError
  end.

End Py.
Import Py.

(* ================================================================== *)
(** * Devices on the network *)
(* ================================================================== *)

(** Modelled from the spec: the class of the [device_info] objects is
    declared outside device.py. A [DeviceInfo] holds the network address
    (host, port), the hardware identifier and the descriptive fields learned
    from discovery, which may be absent. *)
Record DeviceInfo : Type := {
  host : string;
  port : Z;
  mac : string;
  name : option string;
  brand : option string;
  model : option string;
  version : option string
}.

(* ================================================================== *)
(** * The text form of a payload *)
(* ================================================================== *)

(** Modelled from the spec: the serialization inside the codec of
    [greeclimate.network], a module known through tests/test_network.py
    only. The codec "serializes the structure to a canonical text form" and
    the wire carries "JSON-text payloads". The text form is JSON as Python's
    [json.dumps] writes it: [", "] between items, [": "] after a key, and
    every character outside the printable ASCII range escaped. Code points
    above 255 and floating point numbers are not covered. *)
Module Json.

Definition chars (s : string) : list ascii := list_ascii_of_string s.

(** The double quote. *)
Definition dquote : ascii := ascii_of_N 34.

(** ** Writing *)

Fixpoint uint_chars (u : Decimal.uint) : list ascii :=
  match u with
  | Decimal.Nil => []
  | Decimal.D0 u => "0"%char :: uint_chars u
  | Decimal.D1 u => "1"%char :: uint_chars u
  | Decimal.D2 u => "2"%char :: uint_chars u
  | Decimal.D3 u => "3"%char :: uint_chars u
  | Decimal.D4 u => "4"%char :: uint_chars u
  | Decimal.D5 u => "5"%char :: uint_chars u
  | Decimal.D6 u => "6"%char :: uint_chars u
  | Decimal.D7 u => "7"%char :: uint_chars u
  | Decimal.D8 u => "8"%char :: uint_chars u
  | Decimal.D9 u => "9"%char :: uint_chars u
  end.

(** An integer in decimal, with a minus sign when negative. *)
Definition dumps_int (n : Z) : list ascii :=
  match Z.to_int n with
  | Decimal.Pos u => uint_chars u
  | Decimal.Neg u => "-"%char :: uint_chars u
  end.

(** The lower-case hexadecimal digit of a number below sixteen. *)
Definition hex_char (n : N) : ascii :=
  if (n <? 10)%N then ascii_of_N (48 + n) else ascii_of_N (87 + n).

(** One character of a string, as it stands between the quotes. *)
Definition escape_char (c : ascii) : list ascii :=
  let n := N_of_ascii c in
  if (n =? 34)%N then ["\"%char; dquote]
  else if (n =? 92)%N then chars "\\"
  else if (n =? 10)%N then chars "\n"
  else if (n =? 13)%N then chars "\r"
  else if (n =? 9)%N then chars "\t"
  else if (n =? 8)%N then chars "\b"
  else if (n =? 12)%N then chars "\f"
  else if ((n <? 32) || (126 <? n))%N
       then chars "\u00" ++ [hex_char (n / 16); hex_char (n mod 16)]
       else [c].

Definition dumps_str (s : string) : list ascii :=
  dquote :: flat_map escape_char (chars s) ++ [dquote].

(** [json.dumps(j)]. *)
Fixpoint dumps (j : json) : list ascii :=
  match j with
  | JNull => chars "null"
  | JBool true => chars "true"
  | JBool false => chars "false"
  | JNum n => dumps_int n
  | JStr s => dumps_str s
  | JArr [] => chars "[]"
  | JArr (x :: items) =>
      "["%char :: dumps x ++
      flat_map (fun y => chars ", " ++ dumps y) items ++ chars "]"
  | JObj [] => chars "{}"
  | JObj ((k, v) :: fields) =>
      "{"%char :: dumps_str k ++ chars ": " ++ dumps v ++
      flat_map (fun kv : string * json =>
                  let (k', v') := kv in
                  chars ", " ++ dumps_str k' ++ chars ": " ++ dumps v')
        fields ++ chars "}"
  end.

(** ** Reading *)

Definition is_ws (c : ascii) : bool :=
  let n := N_of_ascii c in
  ((n =? 32) || (n =? 9) || (n =? 10) || (n =? 13))%N.

Fixpoint skip_ws (s : list ascii) : list ascii :=
  match s with
  | c :: s' => if is_ws c then skip_ws s' else s
  | [] => []
  end.

Definition digit_of (c : ascii) : option (Decimal.uint -> Decimal.uint) :=
  match N_of_ascii c with
  | 48 => Some Decimal.D0 | 49 => Some Decimal.D1 | 50 => Some Decimal.D2
  | 51 => Some Decimal.D3 | 52 => Some Decimal.D4 | 53 => Some Decimal.D5
  | 54 => Some Decimal.D6 | 55 => Some Decimal.D7 | 56 => Some Decimal.D8
  | 57 => Some Decimal.D9 | _ => None
  end%N.

(** The longest run of digits at the head of the text. *)
Fixpoint read_uint (s : list ascii) : Decimal.uint * list ascii :=
  match s with
  | [] => (Decimal.Nil, [])
  | c :: s' =>
      match digit_of c with
      | Some d => let (u, rest) := read_uint s' in (d u, rest)
      | None => (Decimal.Nil, s)
      end
  end.

(** JSON allows no empty number and no leading zero. *)
Definition plain_uint (u : Decimal.uint) : bool :=
  match u with
  | Decimal.Nil => false
  | Decimal.D0 Decimal.Nil => true
  | Decimal.D0 _ => false
  | _ => true
  end.

(** What may follow an integer: anything but a digit, a fraction or an
    exponent. *)
Definition number_end (s : list ascii) : bool :=
  match s with
  | [] => true
  | c :: _ =>
      match digit_of c with
      | Some _ => false
      | None =>
          negb (Ascii.eqb c "." || Ascii.eqb c "e" || Ascii.eqb c "E")
      end
  end.

Definition read_int (s : list ascii) : option (Z * list ascii) :=
  match s with
  | "-"%char :: s' =>
      let (u, rest) := read_uint s' in
      if plain_uint u && number_end rest
      then Some (Z.of_int (Decimal.Neg u), rest) else None
  | _ =>
      let (u, rest) := read_uint s in
      if plain_uint u && number_end rest
      then Some (Z.of_int (Decimal.Pos u), rest) else None
  end.

Definition hex_value (c : ascii) : option N :=
  let n := N_of_ascii c in
  if ((48 <=? n) && (n <=? 57))%N then Some (n - 48)%N
  else if ((97 <=? n) && (n <=? 102))%N then Some (n - 87)%N
  else if ((65 <=? n) && (n <=? 70))%N then Some (n - 55)%N
  else None.

(** The character that a backslash and the letter [e] stand for. *)
Definition unescape (e : ascii) : option ascii :=
  match N_of_ascii e with
  | 34 => Some dquote
  | 92 => Some "\"%char
  | 47 => Some "/"%char
  | 98 => Some (ascii_of_N 8)
  | 102 => Some (ascii_of_N 12)
  | 110 => Some (ascii_of_N 10)
  | 114 => Some (ascii_of_N 13)
  | 116 => Some (ascii_of_N 9)
  | _ => None
  end%N.

Definition cons_char (c : ascii) (r : option (list ascii * list ascii)) :
    option (list ascii * list ascii) :=
  match r with
  | Some (cs, rest) => Some (c :: cs, rest)
  | None => None
  end.

(** The characters of a string up to its closing quote, and what follows
    the quote. Raw control characters are refused. *)
Fixpoint read_str (s : list ascii) : option (list ascii * list ascii) :=
  match s with
  | [] => None
  | c :: s' =>
      if Ascii.eqb c dquote then Some ([], s')
      else if Ascii.eqb c "\" then
        match s' with
        | [] => None
        | e :: s'' =>
            if Ascii.eqb e "u" then
              match s'' with
              | h1 :: h2 :: h3 :: h4 :: s4 =>
                  match hex_value h1, hex_value h2, hex_value h3,
                        hex_value h4 with
                  | Some a, Some b, Some c', Some d =>
                      let n := (4096 * a + 256 * b + 16 * c' + d)%N in
                      if (n <? 256)%N
                      then cons_char (ascii_of_N n) (read_str s4)
                      else None
                  | _, _, _, _ => None
                  end
              | _ => None
              end
            else
              match unescape e with
              | Some c' => cons_char c' (read_str s'')
              | None => None
              end
        end
      else if (N_of_ascii c <? 32)%N then None
      else cons_char c (read_str s')
  end.

(** [expect word rest]: the text [rest] with the prefix [word] removed. *)
Fixpoint expect (word s : list ascii) : option (list ascii) :=
  match word, s with
  | [], _ => Some s
  | w :: word', c :: s' => if Ascii.eqb w c then expect word' s' else None
  | _ :: _, [] => None
  end.

(** A value at the head of the text and what follows it. [fuel] bounds the
    number of nested calls; [loads] passes the length of the text. A
    repeated key of an object keeps its last value, as in a Python dict. *)
Fixpoint read_value (fuel : nat) (s : list ascii) {struct fuel} :
    option (json * list ascii) :=
  match fuel with
  | O => None
  | S fuel' =>
      match skip_ws s with
      | [] => None
      | c :: s' =>
          if Ascii.eqb c "n" then
            option_map (pair JNull) (expect (chars "ull") s')
          else if Ascii.eqb c "t" then
            option_map (pair (JBool true)) (expect (chars "rue") s')
          else if Ascii.eqb c "f" then
            option_map (pair (JBool false)) (expect (chars "alse") s')
          else if Ascii.eqb c dquote then
            match read_str s' with
            | Some (cs, rest) => Some (JStr (string_of_list_ascii cs), rest)
            | None => None
            end
          else if Ascii.eqb c "[" then
            match skip_ws s' with
            | "]"%char :: rest => Some (JArr [], rest)
            | _ =>
                match read_items fuel' s' with
                | Some (items, rest) => Some (JArr items, rest)
                | None => None
                end
            end
          else if Ascii.eqb c "{" then
            match skip_ws s' with
            | "}"%char :: rest => Some (JObj [], rest)
            | _ =>
                match read_members fuel' s' with
                | Some (fields, rest) =>
                    Some (JObj (dict_of_pairs fields), rest)
                | None => None
                end
            end
          else
            match read_int (c :: s') with
            | Some (n, rest) => Some (JNum n, rest)
            | None => None
            end
      end
  end

with read_items (fuel : nat) (s : list ascii) {struct fuel} :
    option (list json * list ascii) :=
  match fuel with
  | O => None
  | S fuel' =>
      match read_value fuel' s with
      | None => None
      | Some (v, rest) =>
          match skip_ws rest with
          | ","%char :: rest' =>
              match read_items fuel' rest' with
              | Some (vs, rest'') => Some (v :: vs, rest'')
              | None => None
              end
          | "]"%char :: rest' => Some ([v], rest')
          | _ => None
          end
      end
  end

with read_members (fuel : nat) (s : list ascii) {struct fuel} :
    option (list (string * json) * list ascii) :=
  match fuel with
  | O => None
  | S fuel' =>
      match skip_ws s with
      | [] => None
      | q :: s1 =>
          if negb (Ascii.eqb q dquote) then None
          else
            match read_str s1 with
            | None => None
            | Some (k, s2) =>
                match skip_ws s2 with
                | ":"%char :: s3 =>
                    match read_value fuel' s3 with
                    | None => None
                    | Some (v, s4) =>
                        match skip_ws s4 with
                        | ","%char :: s5 =>
                            match read_members fuel' s5 with
                            | Some (ms, s6) =>
                                Some ((string_of_list_ascii k, v) :: ms, s6)
                            | None => None
                            end
                        | "}"%char :: s5 =>
                            Some ([(string_of_list_ascii k, v)], s5)
                        | _ => None
                        end
                    end
                | _ => None
                end
            end
      end
  end.

(** [json.loads(text)]: one value, with nothing but white space after it. *)
Definition loads (s : list ascii) : option json :=
  match read_value (List.length s) s with
  | Some (v, rest) =>
      match skip_ws rest with
      | [] => Some v
      | _ => None
      end
  | None => None
  end.

(** ** The structures that Python can hold *)

Fixpoint unique_keys (ks : list string) : bool :=
  match ks with
  | [] => true
  | k :: ks' => negb (existsb (String.eqb k) ks') && unique_keys ks'
  end.

(** A structure is valid when no dict in it has the same key twice. *)
Fixpoint json_valid (j : json) : bool :=
  match j with
  | JArr items =>
      (fix all (items : list json) : bool :=
         match items with
         | [] => true
         | x :: items' => json_valid x && all items'
         end) items
  | JObj fields =>
      unique_keys (map fst fields) &&
      (fix all (fields : list (string * json)) : bool :=
         match fields with
         | [] => true
         | (_, v) :: fields' => json_valid v && all fields'
         end) fields
  | _ => true
  end.

End Json.

(* ================================================================== *)
(** * The codec *)
(* ================================================================== *)

(** Modelled from the spec: the cipher inside the codec of
    [greeclimate.network], "a symmetric block cipher in a mode requiring no
    explicit initialization vector", that is, applied to one block at a
    time. The cipher itself is not described, so it is a parameter: two
    functions on blocks of sixteen bytes under a key, the second undoing the
    first. *)
Class BlockCipher : Type := {
  encrypt_block : string -> list byte -> list byte;
  decrypt_block : string -> list byte -> list byte;
  encrypt_block_length :
    forall (key : string) (block : list byte),
      List.length block = 16 -> List.length (encrypt_block key block) = 16;
  decrypt_encrypt_block :
    forall (key : string) (block : list byte),
      List.length block = 16 ->
      decrypt_block key (encrypt_block key block) = block
}.

(** Modelled from the spec: [DatagramStream.encrypt_payload] and
    [DatagramStream.decrypt_payload] of [greeclimate.network], which
    tests/test_network.py calls. [encrypt] "serializes the structure to a
    canonical text form, encrypts with the symmetric block cipher [...] and
    returns a text-safe (e.g., base64) encoding"; [decrypt] is the inverse
    and "fails with a DecryptionError if the ciphertext is malformed,
    padding is invalid, or the result is not parseable as the expected
    structure". *)
Module Codec.

(** ** Padding to whole blocks *)

Definition byte_of_nat (n : nat) : byte :=
  match Byte.of_nat n with
  | Some b => b
  | None => x00
  end.

(** Between one and sixteen bytes are added, each holding their number. *)
Definition pad (bs : list byte) : list byte :=
  let n := 16 - List.length bs mod 16 in
  bs ++ repeat (byte_of_nat n) n.

(** The padding is removed after it was checked: the last byte tells its
    length, and every byte of it must hold that length. *)
Definition unpad (bs : list byte) : option (list byte) :=
  let n := Byte.to_nat (last bs x00) in
  let body := List.length bs - n in
  if (1 <=? n)%nat && (n <=? 16)%nat && (n <=? List.length bs)%nat &&
     forallb (Byte.eqb (last bs x00)) (skipn body bs)
  then Some (firstn body bs)
  else None.

(** ** One block at a time *)

(** [f] applied to each block of sixteen bytes. A shorter last block is
    dropped; the callers never pass one. *)
Fixpoint ecb (f : list byte -> list byte) (bs : list byte) : list byte :=
  match bs with
  | b0 :: b1 :: b2 :: b3 :: b4 :: b5 :: b6 :: b7 ::
    b8 :: b9 :: b10 :: b11 :: b12 :: b13 :: b14 :: b15 :: rest =>
      f [b0; b1; b2; b3; b4; b5; b6; b7;
         b8; b9; b10; b11; b12; b13; b14; b15] ++ ecb f rest
  | _ => []
  end.

(** ** Base64 *)

Definition b64_alphabet : list ascii :=
  list_ascii_of_string
    "ABCDEFGHIJKLMNOPQRSTUVWXYZabcdefghijklmnopqrstuvwxyz0123456789+/".

Definition b64_char (n : N) : ascii := nth (N.to_nat n) b64_alphabet "="%char.

Definition b64_value (c : ascii) : option N :=
  let n := N_of_ascii c in
  if ((65 <=? n) && (n <=? 90))%N then Some (n - 65)%N
  else if ((97 <=? n) && (n <=? 122))%N then Some (n - 71)%N
  else if ((48 <=? n) && (n <=? 57))%N then Some (n + 4)%N
  else if (n =? 43)%N then Some 62%N
  else if (n =? 47)%N then Some 63%N
  else None.

Definition byte_of_N (n : N) : byte :=
  match Byte.of_N n with
  | Some b => b
  | None => x00
  end.

(** The four six-bit numbers that three bytes are cut into. *)
Definition sextets (x y z : N) : N * N * N * N :=
  (x / 4, (x mod 4) * 16 + y / 16, (y mod 16) * 4 + z / 64, z mod 64)%N.

(** The three bytes that four six-bit numbers are joined into. *)
Definition octets (s0 s1 s2 s3 : N) : N * N * N :=
  (4 * s0 + s1 / 16, 16 * (s1 mod 16) + s2 / 4, 64 * (s2 mod 4) + s3)%N.

Fixpoint b64encode (bs : list byte) : list ascii :=
  match bs with
  | [] => []
  | [a] =>
      let '(s0, s1, _, _) := sextets (Byte.to_N a) 0 0 in
      [b64_char s0; b64_char s1; "="%char; "="%char]
  | [a; b] =>
      let '(s0, s1, s2, _) := sextets (Byte.to_N a) (Byte.to_N b) 0 in
      [b64_char s0; b64_char s1; b64_char s2; "="%char]
  | a :: b :: c :: rest =>
      let '(s0, s1, s2, s3) :=
        sextets (Byte.to_N a) (Byte.to_N b) (Byte.to_N c) in
      b64_char s0 :: b64_char s1 :: b64_char s2 :: b64_char s3 ::
      b64encode rest
  end.

Fixpoint b64decode (cs : list ascii) : option (list byte) :=
  match cs with
  | [] => Some []
  | c0 :: c1 :: c2 :: c3 :: rest =>
      match b64_value c0, b64_value c1 with
      | Some s0, Some s1 =>
          match b64_value c2, b64_value c3 with
          | Some s2, Some s3 =>
              let '(x, y, z) := octets s0 s1 s2 s3 in
              match b64decode rest with
              | Some bs => Some (byte_of_N x :: byte_of_N y :: byte_of_N z :: bs)
              | None => None
              end
          | Some s2, None =>
              let '(x, y, _) := octets s0 s1 s2 0 in
              match rest with
              | [] => if Ascii.eqb c3 "="
                      then Some [byte_of_N x; byte_of_N y] else None
              | _ => None
              end
          | None, _ =>
              let '(x, _, _) := octets s0 s1 0 0 in
              match rest with
              | [] => if Ascii.eqb c2 "=" && Ascii.eqb c3 "="
                      then Some [byte_of_N x] else None
              | _ => None
              end
          end
      | _, _ => None
      end
  | _ => None
  end.

(** ** The two functions *)

Section WithCipher.

Context {cipher : BlockCipher}.

(** [encrypt_payload(payload, key)]. *)
Definition encrypt_payload (payload : json) (key : string) : string :=
  let text := Json.dumps payload in
  let plain := pad (map byte_of_ascii text) in
  string_of_list_ascii (b64encode (ecb (encrypt_block key) plain)).

(** [decrypt_payload(text, key)]. *)
Definition decrypt_payload (text : string) (key : string) : result json :=
  match b64decode (list_ascii_of_string text) with
  | None => Raise DecryptionError
  | Some bytes =>
      if negb (List.length bytes mod 16 =? 0)%nat then Raise DecryptionError
      else
        match unpad (ecb (decrypt_block key) bytes) with
        | None => Raise DecryptionError
        | Some plain =>
            match Json.loads (map ascii_of_byte plain) with
            | None => Raise DecryptionError
            | Some payload => Return payload
            end
        end
  end.

End WithCipher.

End Codec.

(* ================================================================== *)
(** * The session protocol *)
(* ================================================================== *)

(** Modelled from the spec: [bind_device], [request_state] and [send_state]
    of [greeclimate.network], which tests/test_network.py imports. Each
    operation performs "exactly one send followed by one timeout-bound recv"
    on the stream to the device's address; "a response that fails to decrypt
    or fails to match the expected command type is a protocol error". *)
Module network.

(** The wire envelope: routing fields in clear and the encrypted field
    [pack], which the scan request lacks. *)
Record Packet : Type := {
  cid : string;
  i : Z;
  t : string;
  uid : Z;
  tcp : string;
  pack : option string
}.

(** What [recv] yields after a send: a whole datagram, the timeout, or an
    error reported by the transport. *)
Inductive Received : Type :=
| Datagram (p : Packet)
| Timeout
| TransportFailure.

(** The network seen from the client: what comes back from an address in
    answer to a packet sent there. *)
Definition Network : Type := string -> Z -> Packet -> Received.

(** The constants of the wire format that the spec leaves open: the key
    that is "fixed, publicly-known" and the envelope that a request travels
    in, which holds the given text as its [pack] field. *)
Class Wire : Type := {
  GENERIC_KEY : string;
  envelope : string -> Packet;
  envelope_pack : forall text : string, pack (envelope text) = Some text
}.

(** ** Reading a payload *)

Definition json_field (j : json) (k : string) : option json :=
  match j with
  | JObj fields => dict_get fields k
  | _ => None
  end.

Definition as_list (j : json) : option (list json) :=
  match j with
  | JArr items => Some items
  | _ => None
  end.

Fixpoint as_strings (items : list json) : option (list string) :=
  match items with
  | [] => Some []
  | JStr s :: items' => option_map (cons s) (as_strings items')
  | _ :: _ => None
  end.

(** The list of names under a field, when there is one. *)
Definition names_field (j : json) (k : string) : option (list string) :=
  match json_field j k with
  | Some (JArr items) => as_strings items
  | _ => None
  end.

(** The list of values under a field, when there is one. *)
Definition values_field (j : json) (k : string) : option (list json) :=
  match json_field j k with
  | Some v => as_list v
  | None => None
  end.

(** The payload names the command type [ty] in its field [t]. *)
Definition has_type (ty : string) (j : json) : bool :=
  match json_field j "t" with
  | Some (JStr s) => String.eqb s ty
  | _ => false
  end.

(** The payload names no command type. *)
Definition has_no_type (j : json) : bool :=
  match json_field j "t" with
  | None => true
  | Some _ => false
  end.

(** Names and values are zipped by position; "response name list and value
    list must be equal length [...] or the protocol result is invalid". *)
Definition zip_fields (names : list string) (values : list json) :
    result (dict json) :=
  if (List.length names =? List.length values)%nat
  then Return (dict_zip names values)
  else Raise ProtocolError.

(** ** The three operations *)

Section Operations.

Context {cipher : BlockCipher} {wire : Wire}.

(** One send and one receive on the stream to the device; the payload of
    the answer is decrypted with [key]. *)
Definition exchange (net : Network) (info : DeviceInfo)
    (payload : json) (key : string) : result json :=
  match net (host info) (port info)
          (envelope (Codec.encrypt_payload payload key)) with
  | Timeout => Raise TimeoutError
  | TransportFailure => Raise TransportError
  | Datagram answer =>
      match pack answer with
      | None => Raise ProtocolError
      | Some text => Codec.decrypt_payload text key
      end
  end.

Definition bind_request (info : DeviceInfo) : json :=
  JObj [("mac", JStr (mac info)); ("t", JStr "bind")].

Definition status_request (props : list string) (info : DeviceInfo) : json :=
  JObj [("cols", JArr (map JStr props)); ("mac", JStr (mac info));
        ("t", JStr "status")].

Definition cmd_request (props : dict json) : json :=
  JObj [("opt", JArr (map JStr (dict_keys props)));
        ("p", JArr (dict_values props)); ("t", JStr "cmd")].

(** [bind(device, key=None)]: a supplied key is returned as it is, with no
    network call; otherwise the key is taken from the [bindok] answer to a
    [bind] request, both under the generic key. *)
Definition bind_device (net : Network) (info : DeviceInfo)
    (key : option string) : result string :=
  match key with
  | Some k => Return k
  | None =>
      match exchange net info (bind_request info) GENERIC_KEY with
      | Raise e => Raise e
      | Return answer =>
          if has_type "bindok" answer
          then match json_field answer "key" with
               | Some (JStr k) => Return k
               | _ => Raise ProtocolError
               end
          else Raise ProtocolError
      end
  end.

(** [request_state(property-names, device, key)]. The status response of
    the wire format carries the two lists [cols] and [dat] and no field
    [t]; an answer is of the expected type when it holds both lists and,
    if it names a type at all, names [dat]. *)
Definition request_state (net : Network) (props : list string)
    (info : DeviceInfo) (key : string) : result (dict json) :=
  match exchange net info (status_request props info) key with
  | Raise e => Raise e
  | Return answer =>
      if has_no_type answer || has_type "dat" answer
      then match names_field answer "cols", values_field answer "dat" with
           | Some names, Some values => zip_fields names values
           | _, _ => Raise ProtocolError
           end
      else Raise ProtocolError
  end.

(** [send_state(property-map, device, key)]. The acknowledgment of the
    wire format carries the two lists [opt] and [val] and no field [t];
    every command type that the wire format names belongs to another
    payload, so an answer that names a type is not the acknowledgment and
    is a protocol error. *)
Definition send_state (net : Network) (props : dict json)
    (info : DeviceInfo) (key : string) : result (dict json) :=
  match exchange net info (cmd_request props) key with
  | Raise e => Raise e
  | Return answer =>
      if has_no_type answer
      then match names_field answer "opt", values_field answer "val" with
           | Some names, Some values => zip_fields names values
           | _, _ => Raise ProtocolError
           end
      else Raise ProtocolError
  end.

End Operations.

End network.

(* ================================================================== *)
(** * What device.py imports *)
(* ================================================================== *)

(** The enumeration [Props] of [network_helper] is imported by device.py but
    declared elsewhere. It is taken as a parameter: its members in the order
    of [for x in Props], the wire name [x.value] of each member, and the
    sixteen members that device.py mentions by name. Iterating over a Python
    enumeration visits every member, which is [Props_members_all]. *)
Class PropsEnum : Type := {
  Props : Type;
  Props_members : list Props;
  value : Props -> string;
  Props_members_all : forall p : Props, In p Props_members;
  POWER : Props;
  MODE : Props;
  TEMP_SET : Props;
  TEMP_UNIT : Props;
  FAN_SPEED : Props;
  FRESH_AIR : Props;
  XFAN : Props;
  ANION : Props;
  SLEEP : Props;
  LIGHT : Props;
  SWING_HORIZ : Props;
  SWING_VERT : Props;
  QUIET : Props;
  TURBO : Props;
  STEADY_HEAT : Props;
  POWER_SAVE : Props
}.

(** The module [greeclimate.network_helper], imported as [nethelper]. Its
    three functions are called by device.py and declared elsewhere, so they
    are parameters here: each call takes the state of the network, returns
    or raises, and leaves a new state of the network. What [bind_device]
    returns is stored as the key without a look at it, so it may be [None]
    as well as a string. *)
Module nethelper.

Class Interface : Type := {
  NetState : Type;
  bind_device : DeviceInfo -> NetState -> result (option string) * NetState;
  request_state :
    list string -> DeviceInfo -> string -> NetState ->
    result (dict json) * NetState;
  send_state :
    dict json -> DeviceInfo -> option string -> NetState ->
    result (dict json) * NetState
}.

(** One entry of the log of network calls, with the arguments as passed. *)
Inductive Call : Type :=
| BindDevice (info : DeviceInfo)
| RequestState (props : list string) (info : DeviceInfo) (key : string)
| SendState (props : dict json) (info : DeviceInfo) (key : option string).

End nethelper.

(* ================================================================== *)
(** * greeclimate/device.py *)
(* ================================================================== *)

Module device.

(** The attributes that [Device.__init__] creates (the logger apart). *)
Record Device : Type := {
  device_info : DeviceInfo;
  device_key : option string;
  _properties : option (dict json)
}.

(** [Device(device_info)]. *)
Definition Device_init (info : DeviceInfo) : Device :=
  {| device_info := info; device_key := None; _properties := None |}.

(** The truth value of a key: [None] and the empty string are false. *)
Definition key_truthy (key : option string) : bool :=
  match key with
  | Some k => negb (String.eqb k "")
  | None => false
  end.

(** The truth value of [self._properties]: [None] and the empty dict are
    false. *)
Definition properties_truthy (p : option (dict json)) : bool :=
  match p with
  | Some (_ :: _) => true
  | _ => false
  end.

Section Methods.

Context {props_enum : PropsEnum} {net_iface : nethelper.Interface}.

(** ** The monad of the methods *)

(** What a method can see and change: the device object, the network behind
    [nethelper] and the calls made into it so far. *)
Record World : Type := {
  self : Device;
  net : nethelper.NetState;
  calls : list nethelper.Call
}.

(** A method maps a world to its outcome and the world it leaves; a raised
    exception keeps the mutations made before it. *)
Definition M (A : Type) : Type := World -> result A * World.

Definition ret {A} (a : A) : M A := fun w => (Return a, w).

Definition raise {A} (e : exn) : M A := fun w => (Raise e, w).

Definition bind_M {A B} (m : M A) (k : A -> M B) : M B :=
  fun w =>
    match m w with
    | (Return a, w') => k a w'
    | (Raise e, w') => (Raise e, w')
    end.

Notation "x <- m ;; k" := (bind_M m (fun x => k))
  (at level 61, m at next level, right associativity).
Notation "m ;; k" := (bind_M m (fun _ => k))
  (at level 61, right associativity).

Definition get_self : M Device := fun w => (Return (self w), w).

Definition set_device_key (key : option string) : M unit :=
  fun w =>
    (Return tt,
     {| self := {| device_info := device_info (self w);
                   device_key := key;
                   _properties := _properties (self w) |};
        net := net w; calls := calls w |}).

Definition set_properties (p : option (dict json)) : M unit :=
  fun w =>
    (Return tt,
     {| self := {| device_info := device_info (self w);
                   device_key := device_key (self w);
                   _properties := p |};
        net := net w; calls := calls w |}).

(** A call into [nethelper]: it is logged, the network moves on, and the
    outcome of the call is the outcome here. *)
Definition call {A} (c : nethelper.Call)
    (f : nethelper.NetState -> result A * nethelper.NetState) : M A :=
  fun w =>
    let (r, n) := f (net w) in
    (r, {| self := self w; net := n; calls := calls w ++ [c] |}).

Definition lift {A} (r : result A) : M A := fun w => (r, w).

(** ** The methods *)

(** [Device.bind]. The two logging calls have no effect on the device. *)
Definition bind (key : option string) : M unit :=
  d <- get_self ;;
  (if key_truthy key
   then set_device_key key
   else
     k <- call (nethelper.BindDevice (device_info d))
            (nethelper.bind_device (device_info d)) ;;
     set_device_key k).

(** [Device.update_state]. The result of [nethelper.request_state] is
    assigned as it is returned. *)
Definition update_state : M unit :=
  d <- get_self ;;
  match device_key d with
  | Some k =>
      if String.eqb k "" then raise DeviceNotBoundError
      else
        let props := map value Props_members in
        m <- call (nethelper.RequestState props (device_info d) k)
               (nethelper.request_state props (device_info d) k) ;;
        set_properties (Some m)
  | None => raise DeviceNotBoundError
  end.

(** [Device.get_property]. [d.get(k)] yields [None] for a missing key. *)
Definition get_property (d : Device) (name : Props) : json :=
  if properties_truthy (_properties d)
  then match _properties d with
       | Some m => match dict_get m (value name) with
                   | Some v => v
                   | None => JNull
                   end
       | None => JNull
       end
  else JNull.

(** [Device.set_property]. *)
Definition set_property (name : Props) (v : json) : M unit :=
  d <- get_self ;;
  (if properties_truthy (_properties d) then ret tt
   else set_properties (Some [])) ;;
  d <- get_self ;;
  let m := match _properties d with Some m => m | None => [] end in
  let cached := match dict_get m (value name) with
                | Some c => c
                | None => JNull
                end in
  if py_eq cached v then ret tt
  else
    set_properties (Some (dict_set m (value name) v)) ;;
    d <- get_self ;;
    _ <- call (nethelper.SendState [(value name, v)] (device_info d)
                 (device_key d))
           (nethelper.send_state [(value name, v)] (device_info d)
              (device_key d)) ;;
    ret tt.

(** ** The properties *)

(** A getter of the form [bool(self.get_property(p))]. *)
Definition bool_getter (p : Props) (d : Device) : result bool :=
  Return (py_bool (get_property d p)).

(** A getter of the form [int(self.get_property(p))]. *)
Definition int_getter (p : Props) (d : Device) : result Z :=
  py_int (get_property d p).

(** A setter of the form [self.set_property(p, int(value))]. *)
Definition setter (p : Props) (v : json) : M unit :=
  n <- lift (py_int v) ;;
  set_property p (JNum n).

Definition power := bool_getter POWER.
Definition mode := int_getter MODE.
Definition target_temperature := int_getter TEMP_SET.
Definition temperature_units := int_getter TEMP_UNIT.
Definition fan_speed := int_getter FAN_SPEED.
Definition fresh_air := bool_getter FRESH_AIR.
Definition xfan := bool_getter XFAN.
Definition anion := bool_getter ANION.
Definition sleep := bool_getter SLEEP.
Definition light := bool_getter LIGHT.
Definition horizontal_swing := int_getter SWING_HORIZ.
Definition vertical_swing := int_getter SWING_VERT.
Definition quiet := bool_getter QUIET.
Definition turbo := bool_getter TURBO.
Definition steady_heat := bool_getter STEADY_HEAT.
Definition power_save := bool_getter POWER_SAVE.

Definition set_power := setter POWER.
Definition set_mode := setter MODE.
Definition set_target_temperature := setter TEMP_SET.
Definition set_temperature_units := setter TEMP_UNIT.
Definition set_fan_speed := setter FAN_SPEED.
Definition set_fresh_air := setter FRESH_AIR.
Definition set_xfan := setter XFAN.
Definition set_anion := setter ANION.
Definition set_sleep := setter SLEEP.
Definition set_light := setter LIGHT.
Definition set_horizontal_swing := setter SWING_HORIZ.
Definition set_vertical_swing := setter SWING_VERT.
Definition set_quiet := setter QUIET.
Definition set_turbo := setter TURBO.
Definition set_steady_heat := setter STEADY_HEAT.
Definition set_power_save := setter POWER_SAVE.

(** ** Vocabulary for the statements *)

(** The cached property map as a dict: a device without one has the empty
    cache. *)
Definition cache (d : Device) : dict json :=
  match _properties d with
  | Some m => m
  | None => []
  end.

(** The cached value under a wire name, [None] when there is none. *)
Definition cached (d : Device) (k : string) : json :=
  match dict_get (cache d) k with
  | Some v => v
  | None => JNull
  end.

(** The world [w] with another device object in it. *)
Definition with_self (w : World) (d : Device) : World :=
  {| self := d; net := net w; calls := calls w |}.

Definition with_key (d : Device) (key : option string) : Device :=
  {| device_info := device_info d; device_key := key;
     _properties := _properties d |}.

Definition with_properties (d : Device) (p : option (dict json)) : Device :=
  {| device_info := device_info d; device_key := device_key d;
     _properties := p |}.

End Methods.

End device.

(* ================================================================== *)
(** * The enumerations of device.py *)
(* ================================================================== *)

(** [cls(n)] for an enumeration [cls] with integer values: the first member
    in definition order that has the value [n], [ValueError] when there is
    none. *)
Definition enum_lookup {T : Type} (members : list T) (value : T -> Z)
    (n : Z) : result T :=
  match find (fun m => Z.eqb (value m) n) members with
  | Some m => Return m
  | None => Raise ValueError
  end.

(** Each enumeration is a module: its members [t], the list [members] in
    definition order, [value] for [int(member)] and [of_value] for
    [cls(n)]. *)
Module TemperatureUnits.
Inductive t : Type := C | F.
Definition members : list t := [C; F].
Definition value (m : t) : Z :=
  match m with C => 0 | F => 1 end.
Definition of_value : Z -> result t := enum_lookup members value.
End TemperatureUnits.

Module Mode.
Inductive t : Type := Auto | Cool | Dry | Fan | Heat.
Definition members : list t := [Auto; Cool; Dry; Fan; Heat].
Definition value (m : t) : Z :=
  match m with Auto => 0 | Cool => 1 | Dry => 2 | Fan => 3 | Heat => 4 end.
Definition of_value : Z -> result t := enum_lookup members value.
End Mode.

Module FanSpeed.
Inductive t : Type := Auto | Low | MediumLow | Medium | MediumHigh | High.
Definition members : list t :=
  [Auto; Low; MediumLow; Medium; MediumHigh; High].
Definition value (m : t) : Z :=
  match m with
  | Auto => 0 | Low => 1 | MediumLow => 2 | Medium => 3 | MediumHigh => 4
  | High => 5
  end.
Definition of_value : Z -> result t := enum_lookup members value.
End FanSpeed.

Module HorizontalSwing.
Inductive t : Type :=
| Default | FullSwing | Left | LeftCenter | Center | RightCenter | Right.
Definition members : list t :=
  [Default; FullSwing; Left; LeftCenter; Center; RightCenter; Right].
Definition value (m : t) : Z :=
  match m with
  | Default => 0 | FullSwing => 1 | Left => 2 | LeftCenter => 3
  | Center => 4 | RightCenter => 5 | Right => 6
  end.
Definition of_value : Z -> result t := enum_lookup members value.
End HorizontalSwing.

Module VerticalSwing.
Inductive t : Type :=
| Default | FullSwing | FixedUpper | FixedUpperMiddle | FixedMiddle
| FixedLowerMiddle | FixedLower | SwingUpper | SwingUpperMiddle
| SwingMiddle | SwingLowerMiddle | SwingLower.
Definition members : list t :=
  [Default; FullSwing; FixedUpper; FixedUpperMiddle; FixedMiddle;
   FixedLowerMiddle; FixedLower; SwingUpper; SwingUpperMiddle;
   SwingMiddle; SwingLowerMiddle; SwingLower].
Definition value (m : t) : Z :=
  match m with
  | Default => 0 | FullSwing => 1 | FixedUpper => 2 | FixedUpperMiddle => 3
  | FixedMiddle => 4 | FixedLowerMiddle => 5 | FixedLower => 6
  | SwingUpper => 7 | SwingUpperMiddle => 8 | SwingMiddle => 9
  | SwingLowerMiddle => 10 | SwingLower => 11
  end.
Definition of_value : Z -> result t := enum_lookup members value.
End VerticalSwing.

(* ================================================================== *)
(** * Sequences of calls on a device *)
(* ================================================================== *)

(** A caller that works on one device: it calls [bind], [update_state],
    [set_property] or assigns to a property, one call after the other, and
    goes on when a call raised. *)
Module device_runs.

Section Runs.

Context {props_enum : PropsEnum} {net_iface : nethelper.Interface}.

Inductive Op : Type :=
| Bind (key : option string)
| UpdateState
| SetProperty (p : Props) (v : json)
| Assign (p : Props) (v : json).

Definition step (op : Op) : device.M unit :=
  match op with
  | Bind key => device.bind key
  | UpdateState => device.update_state
  | SetProperty p v => device.set_property p v
  | Assign p v => device.setter p v
  end.

(** The world after the calls, whatever each of them returned or raised. *)
Fixpoint run (ops : list Op) (w : device.World) : device.World :=
  match ops with
  | [] => w
  | op :: ops' => run ops' (snd (step op w))
  end.

Definition is_bind (op : Op) : bool :=
  match op with
  | Bind _ => true
  | _ => false
  end.

End Runs.

End device_runs.

(* ================================================================== *)
(** * greeclimate/gree_climate.py *)
(* ================================================================== *)

Module gree_climate.

(** The part of the [logging] module that [GreeClimate] uses: the logger
    named [gree_climate], which is one object for the whole process, with
    its level and its handlers. A record that the logger lets through goes
    to every handler, in the order in which they were added, and each
    handler that lets it through writes one line: a [FileHandler] to its
    file, a [StreamHandler] to the standard error stream. The text that the
    formatter puts around the message holds the time and is left out.
    Handlers of the root logger are outside the model. *)
Definition DEBUG : Z := 10.
Definition INFO : Z := 20.
Definition WARNING : Z := 30.

Inductive Handler : Type :=
| FileHandler (filename : string) (level : Z)
| StreamHandler (level : Z).

Definition handler_level (h : Handler) : Z :=
  match h with
  | FileHandler _ level => level
  | StreamHandler level => level
  end.

(** One written line: where it went, its level and its message. *)
Inductive Sink : Type :=
| ToFile (filename : string)
| ToStream.

Record Line : Type := {
  sink : Sink;
  levelno : Z;
  message : string
}.

Definition handler_sink (h : Handler) : Sink :=
  match h with
  | FileHandler filename _ => ToFile filename
  | StreamHandler _ => ToStream
  end.

Section WithNetwork.

(** [nethelper.search_devices] and [str] of a device info are declared
    outside the file and taken as parameters. *)
Context {NetState : Type}.
Variable search_devices : NetState -> result (list DeviceInfo) * NetState.
Variable str_info : DeviceInfo -> string.

(** The process as [GreeClimate] sees it: the level and the handlers of the
    logger, the lines written so far, and the network. A logger that was
    never configured lets through what the root logger does, [WARNING]
    and above. *)
Record Process : Type := {
  logger_level : Z;
  handlers : list Handler;
  written : list Line;
  net : NetState
}.

Definition start (n : NetState) : Process :=
  {| logger_level := WARNING; handlers := []; written := []; net := n |}.

(** [self._logger.log(level, msg)]. *)
Definition log (level : Z) (msg : string) (ps : Process) : Process :=
  if (logger_level ps <=? level)%Z
  then
    {| logger_level := logger_level ps;
       handlers := handlers ps;
       written :=
         written ps ++
         map (fun h => {| sink := handler_sink h; levelno := level;
                          message := msg |})
           (filter (fun h => (handler_level h <=? level)%Z) (handlers ps));
       net := net ps |}
  else ps.

(** [GreeClimate()]: the level of the logger is set and two new handlers
    are added to it. *)
Definition GreeClimate_init (ps : Process) : Process :=
  {| logger_level := DEBUG;
     handlers := handlers ps ++
                 [FileHandler "gree_climate.log" DEBUG; StreamHandler DEBUG];
     written := written ps;
     net := net ps |}.

(** [GreeClimate.search_devices]. *)
Definition GreeClimate_search_devices (ps : Process) :
    result (list DeviceInfo) * Process :=
  let ps1 := log INFO "Starting Gree device discovery process" ps in
  let (r, n) := search_devices (net ps1) in
  let ps2 := {| logger_level := logger_level ps1; handlers := handlers ps1;
                written := written ps1; net := n |} in
  match r with
  | Raise e => (Raise e, ps2)
  | Return devices =>
      (Return devices,
       fold_left (fun acc d => log INFO ("Found " ++ str_info d)%string acc)
         devices ps2)
  end.

End WithNetwork.

End gree_climate.

(* ================================================================== *)
(** * Instances for the examples *)
(* ================================================================== *)

Module Examples.

(** A cipher for the examples: every byte of a block is shifted, modulo
    256, by the length of the key. It has the two properties that the codec
    relies on and nothing else to recommend it. *)
Definition shift_of (key : string) : N :=
  (N.of_nat (String.length key) mod 256)%N.

Definition shift_byte (k : N) (b : byte) : byte :=
  Codec.byte_of_N ((Byte.to_N b + k) mod 256).

Definition toy_encrypt (key : string) (block : list byte) : list byte :=
  map (shift_byte (shift_of key)) block.

Definition toy_decrypt (key : string) (block : list byte) : list byte :=
  map (shift_byte (256 - shift_of key)) block.

Lemma to_N_byte_of_N (n : N) :
  (n < 256)%N -> Byte.to_N (Codec.byte_of_N n) = n.
Proof.
  intros Hn. unfold Codec.byte_of_N.
  destruct (Byte.of_N n) as [b|] eqn:E.
  - now apply Byte.to_of_N.
  - apply Byte.of_N_None_iff in E. lia.
Qed.

Lemma shift_byte_back (k : N) (b : byte) :
  (k < 256)%N -> shift_byte (256 - k) (shift_byte k b) = b.
Proof.
  intros Hk. unfold shift_byte.
  pose proof (Byte.to_N_bounded b) as Hb.
  rewrite to_N_byte_of_N by (apply N.mod_upper_bound; discriminate).
  replace (((Byte.to_N b + k) mod 256 + (256 - k)) mod 256)%N
    with (Byte.to_N b)
    by (zify; Z.to_euclidean_division_equations; lia).
  unfold Codec.byte_of_N. now rewrite Byte.of_to_N.
Qed.

Lemma toy_encrypt_length (key : string) (block : list byte) :
  List.length block = 16 -> List.length (toy_encrypt key block) = 16.
Proof. intros H. unfold toy_encrypt. now rewrite length_map. Qed.

Lemma toy_decrypt_encrypt (key : string) (block : list byte) :
  List.length block = 16 -> toy_decrypt key (toy_encrypt key block) = block.
Proof.
  intros _. unfold toy_decrypt, toy_encrypt.
  induction block as [|b block IH]; cbn [map]; [reflexivity|].
  rewrite IH, shift_byte_back; [reflexivity|].
  apply N.mod_upper_bound. discriminate.
Qed.

#[export] Instance toy_cipher : BlockCipher := {|
  encrypt_block := toy_encrypt;
  decrypt_block := toy_decrypt;
  encrypt_block_length := toy_encrypt_length;
  decrypt_encrypt_block := toy_decrypt_encrypt
|}.

(** A vocabulary with exactly the sixteen members that device.py names,
    under the wire names of the Gree protocol. It serves the examples only:
    no general statement depends on it. *)
Inductive SampleProps : Type :=
| S_POWER | S_MODE | S_TEMP_SET | S_TEMP_UNIT | S_FAN_SPEED | S_FRESH_AIR
| S_XFAN | S_ANION | S_SLEEP | S_LIGHT | S_SWING_HORIZ | S_SWING_VERT
| S_QUIET | S_TURBO | S_STEADY_HEAT | S_POWER_SAVE.

Definition sample_members : list SampleProps :=
  [S_POWER; S_MODE; S_TEMP_SET; S_TEMP_UNIT; S_FAN_SPEED; S_FRESH_AIR;
   S_XFAN; S_ANION; S_SLEEP; S_LIGHT; S_SWING_HORIZ; S_SWING_VERT;
   S_QUIET; S_TURBO; S_STEADY_HEAT; S_POWER_SAVE].

Definition sample_value (p : SampleProps) : string :=
  match p with
  | S_POWER => "Pow" | S_MODE => "Mod" | S_TEMP_SET => "SetTem"
  | S_TEMP_UNIT => "TemUn" | S_FAN_SPEED => "WdSpd" | S_FRESH_AIR => "Air"
  | S_XFAN => "Blo" | S_ANION => "Health" | S_SLEEP => "SwhSlp"
  | S_LIGHT => "Lig" | S_SWING_HORIZ => "SwingLfRig"
  | S_SWING_VERT => "SwUpDn" | S_QUIET => "Quiet" | S_TURBO => "Tur"
  | S_STEADY_HEAT => "StHt" | S_POWER_SAVE => "SvSt"
  end.

Definition sample_members_all (p : SampleProps) : In p sample_members.
Proof. destruct p; simpl; tauto. Defined.

#[export] Instance sample_props : PropsEnum := {|
  Props := SampleProps;
  Props_members := sample_members;
  value := sample_value;
  Props_members_all := sample_members_all;
  POWER := S_POWER; MODE := S_MODE; TEMP_SET := S_TEMP_SET;
  TEMP_UNIT := S_TEMP_UNIT; FAN_SPEED := S_FAN_SPEED;
  FRESH_AIR := S_FRESH_AIR; XFAN := S_XFAN; ANION := S_ANION;
  SLEEP := S_SLEEP; LIGHT := S_LIGHT; SWING_HORIZ := S_SWING_HORIZ;
  SWING_VERT := S_SWING_VERT; QUIET := S_QUIET; TURBO := S_TURBO;
  STEADY_HEAT := S_STEADY_HEAT; POWER_SAVE := S_POWER_SAVE
|}.

(** A network with one unit behind it. The state of the network tells
    whether the unit answers; when it does, binding yields a fixed key, a
    status request reports every requested property as [0] and a command is
    echoed; when it does not, every call times out. *)
#[export] Instance sample_net : nethelper.Interface := {|
  nethelper.NetState := bool;
  nethelper.bind_device := fun _ up =>
    (if up then Return (Some "acbd1234") else Raise TimeoutError, up);
  nethelper.request_state := fun props _ _ up =>
    (if up then Return (dict_zip props (map (fun _ => JNum 0) props))
     else Raise TimeoutError, up);
  nethelper.send_state := fun pm _ _ up =>
    (if up then Return pm else Raise TimeoutError, up)
|}.

Definition sample_info : DeviceInfo := {|
  host := "192.168.1.29"; port := 7000; mac := "f4911e7aca59";
  name := Some "1e7aca59"; brand := Some "gree"; model := Some "gree";
  version := Some "V1.1.13"
|}.

(** The world right after [Device(sample_info)], with the unit answering or
    not. *)
Definition fresh_world (up : bool) : device.World :=
  {| device.self := device.Device_init sample_info;
     device.net := up;
     device.calls := [] |}.

(** The constants of the wire for the examples. *)
#[export] Instance sample_wire : network.Wire := {|
  network.GENERIC_KEY := "a3K8Bx%2r8Y7#xDh";
  network.envelope := fun text =>
    {| network.cid := "app"; network.i := 0; network.t := "pack";
       network.uid := 0; network.tcp := ""; network.pack := Some text |};
  network.envelope_pack := fun text => eq_refl
|}.

(** A unit that answers every packet with the same payload, encrypted under
    [key], and a network on which nothing answers. *)
Definition answering (payload : json) (key : string) : network.Network :=
  fun _ _ _ =>
    network.Datagram (network.envelope (Codec.encrypt_payload payload key)).

Definition silent : network.Network := fun _ _ _ => network.Timeout.

(** The payloads of tests/test_network.py. *)
Definition test_object : json := JObj [("fake-key", JStr "fake-value")].

Definition bindok_payload : json :=
  JObj [("t", JStr "bindok"); ("key", JStr "acbd1234")].

Definition status_payload : json :=
  JObj [("cols", JArr [JStr "prop-a"; JStr "prop-b"]);
        ("dat", JArr [JStr "val-a"; JStr "val-b"])].

Definition cmd_payload : json :=
  JObj [("opt", JArr [JStr "prop-a"; JStr "prop-b"]);
        ("val", JArr [JStr "val-a"; JStr "val-b"])].

Definition test_properties : dict json :=
  [("prop-a", JStr "val-a"); ("prop-b", JStr "val-b")].

(** A unit that reads the command it receives, under [key], and
    acknowledges it by repeating the names under [opt] and the values under
    [p]; it stays silent on anything else. *)
Definition echoing (key : string) : network.Network :=
  fun _ _ request =>
    match network.pack request with
    | None => network.Timeout
    | Some text =>
        match Codec.decrypt_payload text key with
        | Raise _ => network.Timeout
        | Return command =>
            match network.json_field command "opt",
                  network.json_field command "p" with
            | Some names, Some values =>
                network.Datagram
                  (network.envelope
                     (Codec.encrypt_payload
                        (JObj [("opt", names); ("val", values)]) key))
            | _, _ => network.Timeout
            end
        end
    end.

(** An acknowledgment with two names and one value, and one that names a
    command type. *)
Definition short_ack : json :=
  JObj [("opt", JArr [JStr "prop-a"; JStr "prop-b"]);
        ("val", JArr [JStr "val-a"])].

Definition typed_ack : json :=
  JObj [("t", JStr "bindok");
        ("opt", JArr [JStr "prop-a"; JStr "prop-b"]);
        ("val", JArr [JStr "val-a"; JStr "val-b"])].

End Examples.

(* ================================================================== *)
(** * Facts about dictionaries *)
(* ================================================================== *)

Section DictFacts.

Context {V : Type}.

Lemma dict_get_set_same (d : dict V) (k : string) (v : V) :
  dict_get (dict_set d k v) k = Some v.
Proof.
  induction d as [|[k' v'] d IH]; simpl.
  - now rewrite String.eqb_refl.
  - destruct (String.eqb k' k) eqn:E; simpl; rewrite E; auto.
Qed.

Lemma dict_get_set_other (d : dict V) (k k' : string) (v : V) :
  k' <> k -> dict_get (dict_set d k v) k' = dict_get d k'.
Proof.
  intros Hne. induction d as [|[k0 v0] d IH]; simpl.
  - destruct (String.eqb_spec k k'); congruence.
  - destruct (String.eqb_spec k0 k) as [->|Hk]; simpl.
    + destruct (String.eqb_spec k k'); congruence.
    + destruct (String.eqb_spec k0 k'); auto.
Qed.

Lemma dict_set_keys_fresh (d : dict V) (k : string) (v : V) :
  ~ In k (dict_keys d) -> dict_set d k v = d ++ [(k, v)].
Proof.
  induction d as [|[k' v'] d IH]; simpl; intros Hk; auto.
  destruct (String.eqb_spec k' k) as [->|Hne].
  - tauto.
  - f_equal. apply IH. tauto.
Qed.

Lemma dict_of_pairs_from (acc pairs : dict V) :
  NoDup (dict_keys (acc ++ pairs)) ->
  fold_left (fun d kv => dict_set d (fst kv) (snd kv)) pairs acc
  = acc ++ pairs.
Proof.
  revert acc. induction pairs as [|[k v] pairs IH]; intros acc Hnd; simpl.
  - now rewrite app_nil_r.
  - assert (Hsplit : acc ++ (k, v) :: pairs = (acc ++ [(k, v)]) ++ pairs)
      by now rewrite <- app_assoc.
    rewrite dict_set_keys_fresh.
    + rewrite Hsplit in Hnd |- *. now apply IH.
    + unfold dict_keys in *. rewrite map_app in Hnd. simpl in Hnd.
      apply NoDup_remove_2 in Hnd. intros Hin. apply Hnd.
      apply in_or_app. now left.
Qed.

(** A dict is rebuilt by zipping its keys with its values. *)
Lemma dict_zip_keys_values (d : dict V) :
  NoDup (dict_keys d) -> dict_zip (dict_keys d) (dict_values d) = d.
Proof.
  intros Hnd. unfold dict_zip, dict_of_pairs, dict_keys, dict_values.
  assert (Hc : combine (map fst d) (map snd d) = d).
  { clear Hnd. induction d as [|[k v] d IH]; simpl; congruence. }
  rewrite Hc. now apply (dict_of_pairs_from [] d).
Qed.

End DictFacts.

(* ================================================================== *)
(** * Reading back what was written *)
(* ================================================================== *)

Module JsonFacts.
Import Json.

(** ** Numbers *)

Lemma read_uint_stop (s : list ascii) :
  number_end s = true -> read_uint s = (Decimal.Nil, s).
Proof.
  destruct s as [|c s]; simpl; [reflexivity|].
  destruct (digit_of c); [discriminate|reflexivity].
Qed.

Lemma read_uint_chars (u : Decimal.uint) (rest : list ascii) :
  number_end rest = true ->
  read_uint (uint_chars u ++ rest) = (u, rest).
Proof.
  intros Hend. induction u; simpl;
    try (unfold digit_of; simpl; rewrite IHu; reflexivity).
  now apply read_uint_stop.
Qed.

(** The decimal form of a positive number has no leading zero. *)
Lemma plain_uint_pos (p : positive) : plain_uint (Pos.to_uint p) = true.
Proof.
  pose proof (DecimalPos.Unsigned.to_of (Pos.to_uint p)) as Hnorm.
  rewrite DecimalPos.Unsigned.of_to in Hnorm. simpl in Hnorm.
  pose proof (DecimalPos.Unsigned.to_uint_nonzero p) as Hnz.
  pose proof (DecimalPos.Unsigned.to_uint_nonnil p) as Hnn.
  destruct (Pos.to_uint p) as [|u|u|u|u|u|u|u|u|u|u]; try reflexivity.
  - contradiction.
  - exfalso. rewrite DecimalFacts.unorm_D0 in Hnorm.
    unfold Decimal.unorm in Hnorm.
    destruct (Decimal.nzhead u) as [|u'|u'|u'|u'|u'|u'|u'|u'|u'|u'] eqn:Hhead;
      try discriminate Hnorm.
    + apply Hnz. exact Hnorm.
    + exact (DecimalFacts.nzhead_nonzero u u' Hhead).
Qed.

Lemma read_int_dumps (n : Z) (rest : list ascii) :
  number_end rest = true ->
  read_int (dumps_int n ++ rest) = Some (n, rest).
Proof.
  intros Hend. unfold dumps_int.
  pose proof (DecimalZ.of_to n) as Hn.
  destruct n as [|p|p]; simpl Z.to_int in *.
  - pose proof (read_uint_chars (Decimal.D0 Decimal.Nil) rest Hend) as Hread.
    unfold read_int; simpl uint_chars in *; simpl app in *.
    rewrite Hread. simpl plain_uint. rewrite Hend. reflexivity.
  - pose proof (plain_uint_pos p) as Hplain.
    pose proof (read_uint_chars (Pos.to_uint p) rest Hend) as Hread.
    destruct (Pos.to_uint p) as [|u|u|u|u|u|u|u|u|u|u];
      try discriminate Hplain;
      unfold read_int; simpl uint_chars in *; simpl app in *;
      rewrite Hread, Hplain, Hend, Hn; reflexivity.
  - pose proof (plain_uint_pos p) as Hplain.
    pose proof (read_uint_chars (Pos.to_uint p) rest Hend) as Hread.
    simpl app. unfold read_int. cbv iota.
    rewrite Hread, Hplain, Hend, Hn; reflexivity.
Qed.

(** A number starts with a digit or with the minus sign. *)
Definition number_start (s : list ascii) : bool :=
  match s with
  | [] => false
  | c :: _ =>
      match digit_of c with
      | Some _ => true
      | None => Ascii.eqb c "-"
      end
  end.

Lemma number_start_dumps (n : Z) (rest : list ascii) :
  number_start (dumps_int n ++ rest) = true.
Proof.
  unfold dumps_int. destruct n as [|p|p]; simpl Z.to_int; try reflexivity.
  pose proof (DecimalPos.Unsigned.to_uint_nonnil p) as Hnn.
  destruct (Pos.to_uint p); try reflexivity. contradiction.
Qed.

(** ** Strings *)

Lemma read_str_escape (c : ascii) (tail : list ascii) :
  read_str (escape_char c ++ tail) = cons_char c (read_str tail).
Proof.
  destruct c as [[] [] [] [] [] [] [] []]; reflexivity.
Qed.

Lemma read_str_dumps (cs rest : list ascii) :
  read_str (flat_map escape_char cs ++ dquote :: rest) = Some (cs, rest).
Proof.
  induction cs as [|c cs IH]; simpl.
  - reflexivity.
  - rewrite <- app_assoc, read_str_escape, IH. reflexivity.
Qed.

(** ** Values *)

(** Induction on a structure, with the hypothesis available for every item
    of a list and every value of a dict. *)
Lemma json_nested_ind (P : json -> Prop) :
  P JNull ->
  (forall b, P (JBool b)) ->
  (forall n, P (JNum n)) ->
  (forall s, P (JStr s)) ->
  (forall items, Forall P items -> P (JArr items)) ->
  (forall fields, Forall (fun kv => P (snd kv)) fields -> P (JObj fields)) ->
  forall j, P j.
Proof.
  intros Hnull Hbool Hnum Hstr Harr Hobj.
  fix IH 1. intros [|b|n|s|items|fields].
  - exact Hnull.
  - apply Hbool.
  - apply Hnum.
  - apply Hstr.
  - apply Harr.
    revert items. fix IHitems 1. intros [|x items].
    + constructor.
    + constructor; [apply IH|apply IHitems].
  - apply Hobj.
    revert fields. fix IHfields 1. intros [|[k v] fields].
    + constructor.
    + constructor; [apply IH|apply IHfields].
Qed.

(** What follows the first item of a list, and the first entry of a dict,
    in the text form. *)
Definition items_tail (items : list json) : list ascii :=
  flat_map (fun y => chars ", " ++ dumps y) items.

Definition fields_tail (fields : list (string * json)) : list ascii :=
  flat_map (fun kv : string * json =>
              let (k, v) := kv in
              chars ", " ++ dumps_str k ++ chars ": " ++ dumps v) fields.

Lemma dumps_arr (x : json) (items : list json) :
  dumps (JArr (x :: items)) =
  "["%char :: dumps x ++ items_tail items ++ chars "]".
Proof. reflexivity. Qed.

Lemma dumps_obj (k : string) (v : json) (fields : list (string * json)) :
  dumps (JObj ((k, v) :: fields)) =
  "{"%char :: dumps_str k ++ chars ": " ++ dumps v ++ fields_tail fields ++
  chars "}".
Proof. reflexivity. Qed.

Lemma dumps_str_app (k : string) (tail : list ascii) :
  dumps_str k ++ tail =
  dquote :: flat_map escape_char (chars k) ++ dquote :: tail.
Proof. unfold dumps_str. simpl. now rewrite <- app_assoc. Qed.

(** A value starts with a character that is neither white space nor a
    closing bracket. *)
Definition value_start (s : list ascii) : bool :=
  match s with
  | [] => false
  | c :: _ => negb (is_ws c) && negb (Ascii.eqb c "]") && negb (Ascii.eqb c "}")
  end.

Lemma number_start_value_start (s : list ascii) :
  number_start s = true -> value_start s = true.
Proof.
  destruct s as [|c s]; [discriminate|].
  destruct c as [[] [] [] [] [] [] [] []]; simpl; intros H;
    try discriminate H; reflexivity.
Qed.

Lemma value_start_dumps (v : json) (rest : list ascii) :
  value_start (dumps v ++ rest) = true.
Proof.
  destruct v as [|[]|n|s|[|x items]|[|[k w] fields]]; try reflexivity.
  apply number_start_value_start, number_start_dumps.
Qed.

Lemma skip_ws_value_start (s : list ascii) :
  value_start s = true -> skip_ws s = s.
Proof.
  destruct s as [|c s]; [reflexivity|]. simpl.
  destruct (is_ws c); [discriminate|reflexivity].
Qed.

(** The equations of the reader, case by case. *)

Lemma read_value_space (fuel : nat) (s : list ascii) :
  read_value fuel (" "%char :: s) = read_value fuel s.
Proof. destruct fuel; reflexivity. Qed.

Lemma read_value_number (fuel : nat) (s : list ascii) :
  number_start s = true ->
  read_value (S fuel) s =
  match read_int s with
  | Some (n, rest) => Some (JNum n, rest)
  | None => None
  end.
Proof.
  destruct s as [|c s]; [discriminate|].
  destruct c as [[] [] [] [] [] [] [] []]; simpl number_start; intros H;
    try discriminate H; reflexivity.
Qed.

Lemma read_value_str (fuel : nat) (s : list ascii) :
  read_value (S fuel) (dquote :: s) =
  match read_str s with
  | Some (cs, rest) => Some (JStr (string_of_list_ascii cs), rest)
  | None => None
  end.
Proof. reflexivity. Qed.

Lemma read_value_arr (fuel : nat) (s : list ascii) :
  value_start s = true ->
  read_value (S fuel) ("["%char :: s) =
  match read_items fuel s with
  | Some (items, rest) => Some (JArr items, rest)
  | None => None
  end.
Proof.
  destruct s as [|c s]; [discriminate|].
  destruct c as [[] [] [] [] [] [] [] []]; simpl value_start; intros H;
    try discriminate H; reflexivity.
Qed.

Lemma read_value_obj (fuel : nat) (s : list ascii) :
  read_value (S fuel) ("{"%char :: dquote :: s) =
  match read_members fuel (dquote :: s) with
  | Some (fields, rest) => Some (JObj (dict_of_pairs fields), rest)
  | None => None
  end.
Proof. reflexivity. Qed.

Lemma read_items_eq (fuel : nat) (s : list ascii) :
  read_items (S fuel) s =
  match read_value fuel s with
  | None => None
  | Some (v, rest) =>
      match skip_ws rest with
      | ","%char :: rest' =>
          match read_items fuel rest' with
          | Some (vs, rest'') => Some (v :: vs, rest'')
          | None => None
          end
      | "]"%char :: rest' => Some ([v], rest')
      | _ => None
      end
  end.
Proof. reflexivity. Qed.

Lemma read_items_space (fuel : nat) (s : list ascii) :
  read_items fuel (" "%char :: s) = read_items fuel s.
Proof.
  destruct fuel; [reflexivity|]. now rewrite !read_items_eq, read_value_space.
Qed.

Lemma read_members_quote (fuel : nat) (s : list ascii) :
  read_members (S fuel) (dquote :: s) =
  match read_str s with
  | None => None
  | Some (k, s2) =>
      match skip_ws s2 with
      | ":"%char :: s3 =>
          match read_value fuel s3 with
          | None => None
          | Some (v, s4) =>
              match skip_ws s4 with
              | ","%char :: s5 =>
                  match read_members fuel s5 with
                  | Some (ms, s6) =>
                      Some ((string_of_list_ascii k, v) :: ms, s6)
                  | None => None
                  end
              | "}"%char :: s5 => Some ([(string_of_list_ascii k, v)], s5)
              | _ => None
              end
          end
      | _ => None
      end
  end.
Proof. reflexivity. Qed.

Lemma read_members_space (fuel : nat) (s : list ascii) :
  read_members fuel (" "%char :: s) = read_members fuel s.
Proof. destruct fuel; reflexivity. Qed.

(** The statement proved by induction on the structure: a valid value is
    read back from its text, whatever follows it, as soon as the fuel covers
    the length of the text. *)
Definition reads_back (v : json) : Prop :=
  json_valid v = true ->
  forall (fuel : nat) (rest : list ascii),
    List.length (dumps v) <= fuel ->
    number_end rest = true ->
    read_value fuel (dumps v ++ rest) = Some (v, rest).

Lemma number_end_items_tail (items : list json) (rest : list ascii) :
  number_end (items_tail items ++ "]"%char :: rest) = true.
Proof. destruct items; reflexivity. Qed.

Lemma number_end_fields_tail (fields : list (string * json))
    (rest : list ascii) :
  number_end (fields_tail fields ++ "}"%char :: rest) = true.
Proof. destruct fields as [|[k v] fields]; reflexivity. Qed.

Lemma json_valid_arr (x : json) (items : list json) :
  json_valid (JArr (x :: items)) = json_valid x && json_valid (JArr items).
Proof. reflexivity. Qed.

Lemma json_valid_obj (fields : list (string * json)) :
  json_valid (JObj fields) =
  unique_keys (map fst fields) &&
  forallb (fun kv => json_valid (snd kv)) fields.
Proof.
  cbn [json_valid]. f_equal.
  induction fields as [|[k v] fields IH]; [reflexivity|].
  cbn [forallb snd]. now rewrite IH.
Qed.

Lemma items_tail_cons (y : json) (items : list json) (rest : list ascii) :
  items_tail (y :: items) ++ rest =
  ","%char :: " "%char :: dumps y ++ items_tail items ++ rest.
Proof.
  unfold items_tail. cbn [flat_map]. now rewrite <- !app_assoc.
Qed.

Lemma fields_tail_cons (k : string) (v : json)
    (fields : list (string * json)) (rest : list ascii) :
  fields_tail ((k, v) :: fields) ++ rest =
  ","%char :: " "%char :: dumps_str k ++ chars ": " ++ dumps v ++
  fields_tail fields ++ rest.
Proof.
  unfold fields_tail. cbn [flat_map]. now rewrite <- !app_assoc.
Qed.

Lemma skip_ws_comma (s : list ascii) :
  skip_ws (","%char :: s) = ","%char :: s.
Proof. reflexivity. Qed.

Lemma skip_ws_colon (s : list ascii) :
  skip_ws (chars ": " ++ s) = ":"%char :: " "%char :: s.
Proof. reflexivity. Qed.

Lemma read_items_dumps (items : list json) :
  forall (x : json) (fuel : nat) (rest : list ascii),
    reads_back x -> Forall reads_back items ->
    json_valid (JArr (x :: items)) = true ->
    List.length (dumps x ++ items_tail items) < fuel ->
    read_items fuel (dumps x ++ items_tail items ++ "]"%char :: rest)
    = Some (x :: items, rest).
Proof.
  induction items as [|y items IH]; intros x fuel rest Hx Hitems Hvalid Hfuel;
    rewrite json_valid_arr in Hvalid; apply andb_true_iff in Hvalid;
    destruct Hvalid as [Hvx Hvitems];
    (destruct fuel as [|fuel]; [inversion Hfuel|]);
    rewrite length_app in Hfuel; rewrite read_items_eq.
  - rewrite (Hx Hvx fuel); [reflexivity|lia|reflexivity].
  - rewrite (Hx Hvx fuel);
      [|lia|apply (number_end_items_tail (y :: items))].
    inversion Hitems as [|? ? Hy Hitems']; subst.
    rewrite <- (app_nil_r (items_tail (y :: items))) in Hfuel.
    rewrite items_tail_cons in Hfuel |- *.
    rewrite app_nil_r in Hfuel. cbn [List.length] in Hfuel.
    rewrite skip_ws_comma. cbv iota. rewrite read_items_space.
    rewrite (IH y fuel rest Hy Hitems' Hvitems); [reflexivity|lia].
Qed.

Lemma read_members_dumps (fields : list (string * json)) :
  forall (k : string) (v : json) (fuel : nat) (rest : list ascii),
    reads_back v -> Forall (fun kv => reads_back (snd kv)) fields ->
    forallb (fun kv => json_valid (snd kv)) ((k, v) :: fields) = true ->
    List.length (dumps_str k ++ chars ": " ++ dumps v ++ fields_tail fields)
      < fuel ->
    read_members fuel
      (dumps_str k ++ chars ": " ++ dumps v ++ fields_tail fields ++
       "}"%char :: rest)
    = Some ((k, v) :: fields, rest).
Proof.
  induction fields as [|[k' v'] fields IH];
    intros k v fuel rest Hv Hfields Hvalid Hfuel;
    cbn [forallb snd] in Hvalid; apply andb_true_iff in Hvalid;
    destruct Hvalid as [Hvv Hvfields];
    (destruct fuel as [|fuel]; [inversion Hfuel|]);
    rewrite !length_app in Hfuel;
    rewrite dumps_str_app, read_members_quote, read_str_dumps;
    unfold chars at 1; rewrite string_of_list_ascii_of_string;
    rewrite skip_ws_colon; cbv iota; rewrite read_value_space.
  - rewrite (Hv Hvv fuel); [reflexivity|lia|reflexivity].
  - rewrite (Hv Hvv fuel);
      [|lia|apply (number_end_fields_tail ((k', v') :: fields))].
    inversion Hfields as [|? ? Hv' Hfields']; subst.
    rewrite <- (app_nil_r (fields_tail ((k', v') :: fields))) in Hfuel.
    rewrite fields_tail_cons in Hfuel |- *.
    rewrite !app_nil_r in Hfuel. cbn [List.length] in Hfuel.
    rewrite skip_ws_comma. cbv iota. rewrite read_members_space.
    rewrite (IH k' v' fuel rest Hv' Hfields' Hvfields); [reflexivity|lia].
Qed.

Lemma unique_keys_NoDup (ks : list string) :
  unique_keys ks = true -> NoDup ks.
Proof.
  induction ks as [|k ks IH]; simpl; intros H; constructor;
    apply andb_true_iff in H; destruct H as [Hk Hks].
  - intros Hin. apply negb_true_iff in Hk.
    assert (Hex : existsb (String.eqb k) ks = true).
    { apply existsb_exists. exists k. split; [exact Hin|apply String.eqb_refl]. }
    congruence.
  - now apply IH.
Qed.

(** Every valid structure is read back from its text. *)
Lemma read_value_dumps (v : json) : reads_back v.
Proof.
  induction v as [|b|n|s|items IH|fields IH] using json_nested_ind;
    intros Hvalid fuel rest Hfuel Hend.
  - destruct fuel; [inversion Hfuel|reflexivity].
  - destruct fuel; [destruct b; inversion Hfuel|destruct b; reflexivity].
  - pose proof (number_start_dumps n rest) as Hstart.
    destruct fuel as [|fuel].
    + pose proof (number_start_dumps n []) as Hnonempty.
      cbn [dumps] in Hfuel.
      destruct (dumps_int n); [discriminate Hnonempty|inversion Hfuel].
    + cbn [dumps]. now rewrite read_value_number, read_int_dumps.
  - destruct fuel; [inversion Hfuel|].
    cbn [dumps]. rewrite dumps_str_app, read_value_str, read_str_dumps.
    unfold chars. now rewrite string_of_list_ascii_of_string.
  - destruct fuel as [|fuel]; [destruct items; inversion Hfuel|].
    destruct items as [|x items]; [reflexivity|].
    rewrite dumps_arr in Hfuel |- *. cbn [List.length] in Hfuel.
    rewrite !length_app in Hfuel.
    change (List.length (chars "]")) with 1 in Hfuel.
    cbn [app]. rewrite <- !app_assoc.
    rewrite read_value_arr by apply value_start_dumps.
    inversion IH as [|? ? Hx Hitems]; subst.
    change (chars "]" ++ rest) with ("]"%char :: rest).
    rewrite (read_items_dumps items x fuel rest Hx Hitems Hvalid);
      [reflexivity|rewrite length_app; lia].
  - destruct fuel as [|fuel]; [destruct fields as [|[? ?] ?]; inversion Hfuel|].
    destruct fields as [|[k v] fields]; [reflexivity|].
    rewrite json_valid_obj in Hvalid. apply andb_true_iff in Hvalid.
    destruct Hvalid as [Hkeys Hvalues].
    rewrite dumps_obj in Hfuel |- *. cbn [List.length] in Hfuel.
    rewrite !length_app in Hfuel.
    change (List.length (chars "}")) with 1 in Hfuel.
    cbn [app]. rewrite <- !app_assoc.
    rewrite (dumps_str_app k) at 1. rewrite read_value_obj.
    rewrite <- dumps_str_app.
    inversion IH as [|? ? Hv Hfields]; subst.
    change (chars "}" ++ rest) with ("}"%char :: rest).
    rewrite (read_members_dumps fields k v fuel rest Hv Hfields Hvalues);
      [|rewrite !length_app; lia].
    unfold dict_of_pairs.
    rewrite (dict_of_pairs_from [] ((k, v) :: fields));
      [reflexivity|now apply unique_keys_NoDup].
Qed.

(** [loads] undoes [dumps] on every valid structure. *)
Lemma loads_dumps (v : json) :
  json_valid v = true -> loads (dumps v) = Some v.
Proof.
  intros Hvalid. unfold loads.
  rewrite <- (List.app_nil_r (dumps v)) at 2.
  rewrite (read_value_dumps v Hvalid); [reflexivity|lia|reflexivity].
Qed.

End JsonFacts.

(* ================================================================== *)
(** * The codec round trip *)
(* ================================================================== *)

Module CodecFacts.
Import Codec.

(** ** Padding *)

Lemma to_nat_byte_of_nat (n : nat) : n <= 255 -> Byte.to_nat (byte_of_nat n) = n.
Proof.
  intros Hn. unfold byte_of_nat.
  destruct (Byte.of_nat n) as [b|] eqn:E.
  - now apply Byte.to_of_nat.
  - apply Byte.of_nat_None_iff in E. lia.
Qed.

Lemma firstn_length_app {A} (l r : list A) : firstn (List.length l) (l ++ r) = l.
Proof. induction l; simpl; [now destruct r|congruence]. Qed.

Lemma skipn_length_app {A} (l r : list A) : skipn (List.length l) (l ++ r) = r.
Proof. induction l; simpl; auto. Qed.

Lemma last_app_repeat {A} (l : list A) (a d : A) (n : nat) :
  last (l ++ repeat a (S n)) d = a.
Proof.
  cbn [repeat]. rewrite repeat_cons, app_assoc. apply last_last.
Qed.

Lemma forallb_eqb_repeat (b : byte) (n : nat) :
  forallb (Byte.eqb b) (repeat b n) = true.
Proof.
  induction n; simpl; [reflexivity|].
  rewrite IHn, (Byte.byte_dec_lb (eq_refl b)). reflexivity.
Qed.

Lemma pad_amount (len : nat) :
  1 <= 16 - len mod 16 <= 16.
Proof. pose proof (Nat.mod_upper_bound len 16). lia. Qed.

Lemma unpad_pad (bs : list byte) : unpad (pad bs) = Some bs.
Proof.
  unfold pad, unpad.
  pose proof (pad_amount (List.length bs)) as Hn.
  set (n := 16 - List.length bs mod 16) in *.
  destruct n as [|m] eqn:En; [lia|].
  rewrite last_app_repeat, to_nat_byte_of_nat by lia.
  rewrite length_app, repeat_length.
  replace (List.length bs + S m - S m) with (List.length bs) by lia.
  rewrite skipn_length_app, firstn_length_app, forallb_eqb_repeat.
  replace (S m <=? 16)%nat with true by (symmetry; apply Nat.leb_le; lia).
  replace (S m <=? List.length bs + S m)%nat with true
    by (symmetry; apply Nat.leb_le; lia).
  reflexivity.
Qed.

Lemma pad_length (bs : list byte) :
  List.length (pad bs) = 16 * (List.length bs / 16 + 1).
Proof.
  unfold pad. rewrite length_app, repeat_length.
  pose proof (Nat.div_mod_eq (List.length bs) 16).
  pose proof (Nat.mod_upper_bound (List.length bs) 16). lia.
Qed.

(** ** Whole blocks *)

(** The byte strings that are made of blocks of sixteen bytes. *)
Inductive whole_blocks : list byte -> Prop :=
| whole_nil : whole_blocks []
| whole_cons (block rest : list byte) :
    List.length block = 16 -> whole_blocks rest ->
    whole_blocks (block ++ rest).

Lemma whole_blocks_length (n : nat) :
  forall bs : list byte, List.length bs = 16 * n -> whole_blocks bs.
Proof.
  induction n as [|n IH]; intros bs Hlen.
  - destruct bs; [constructor|discriminate].
  - rewrite <- (firstn_skipn 16 bs). constructor.
    + rewrite length_firstn. lia.
    + apply IH. rewrite length_skipn. lia.
Qed.

Lemma whole_blocks_pad (bs : list byte) : whole_blocks (pad bs).
Proof. eapply whole_blocks_length, pad_length. Qed.

Lemma ecb_block (f : list byte -> list byte) (block rest : list byte) :
  List.length block = 16 -> ecb f (block ++ rest) = f block ++ ecb f rest.
Proof.
  intros Hlen.
  do 16 (destruct block as [|? block]; [discriminate Hlen|]).
  destruct block; [reflexivity|discriminate Hlen].
Qed.

Section WithCipher.

Context {cipher : BlockCipher}.

Lemma ecb_encrypt_whole (key : string) (bs : list byte) :
  whole_blocks bs -> whole_blocks (ecb (encrypt_block key) bs).
Proof.
  induction 1 as [|block rest Hlen Hrest IH]; [constructor|].
  rewrite ecb_block by assumption. constructor; [|assumption].
  now apply encrypt_block_length.
Qed.

Lemma whole_blocks_mod (bs : list byte) :
  whole_blocks bs -> List.length bs mod 16 = 0.
Proof.
  induction 1 as [|block rest Hlen Hrest IH]; [reflexivity|].
  rewrite length_app, Hlen.
  replace (16 + List.length rest) with (List.length rest + 1 * 16) by lia.
  now rewrite Nat.Div0.mod_add.
Qed.

Lemma ecb_decrypt_encrypt (key : string) (bs : list byte) :
  whole_blocks bs ->
  ecb (decrypt_block key) (ecb (encrypt_block key) bs) = bs.
Proof.
  induction 1 as [|block rest Hlen Hrest IH]; [reflexivity|].
  rewrite ecb_block by assumption.
  rewrite ecb_block by now apply encrypt_block_length.
  now rewrite decrypt_encrypt_block, IH.
Qed.

End WithCipher.

(** ** Base64 *)

Ltac euclid := zify; Z.to_euclidean_division_equations; lia.

Lemma b64_value_char (n : N) : (n < 64)%N -> b64_value (b64_char n) = Some n.
Proof.
  intros Hn.
  assert (Hall : forallb (fun m => match b64_value (b64_char m) with
                                   | Some m' => N.eqb m' m
                                   | None => false
                                   end)
                   (map N.of_nat (seq 0 64)) = true) by (vm_compute; reflexivity).
  rewrite forallb_forall in Hall.
  specialize (Hall n).
  destruct (b64_value (b64_char n)) as [m|].
  - f_equal. apply N.eqb_eq, Hall, in_map_iff.
    exists (N.to_nat n). split; [apply N2Nat.id|apply in_seq; lia].
  - assert (false = true); [|discriminate]. apply Hall, in_map_iff.
    exists (N.to_nat n). split; [apply N2Nat.id|apply in_seq; lia].
Qed.

Lemma sextets_bound (x y z : N) :
  (x < 256)%N -> (y < 256)%N -> (z < 256)%N ->
  (x / 4 < 64 /\ (x mod 4) * 16 + y / 16 < 64 /\
   (y mod 16) * 4 + z / 64 < 64 /\ z mod 64 < 64)%N.
Proof. intros. repeat split; euclid. Qed.

Lemma octet_first (x y : N) :
  (x < 256)%N -> (y < 256)%N ->
  (4 * (x / 4) + ((x mod 4) * 16 + y / 16) / 16 = x)%N.
Proof. intros. euclid. Qed.

Lemma octet_second (x y z : N) :
  (x < 256)%N -> (y < 256)%N -> (z < 256)%N ->
  (16 * (((x mod 4) * 16 + y / 16) mod 16) + ((y mod 16) * 4 + z / 64) / 4
   = y)%N.
Proof. intros. euclid. Qed.

Lemma octet_third (y z : N) :
  (y < 256)%N -> (z < 256)%N ->
  (64 * (((y mod 16) * 4 + z / 64) mod 4) + z mod 64 = z)%N.
Proof. intros. euclid. Qed.

Lemma to_N_lt (b : byte) : (Byte.to_N b < 256)%N.
Proof. pose proof (Byte.to_N_bounded b). lia. Qed.

Lemma byte_of_to_N (b : byte) : byte_of_N (Byte.to_N b) = b.
Proof. unfold byte_of_N. now rewrite Byte.of_to_N. Qed.

(** Induction on a list, three items at a time. *)
Lemma list_ind3 {A} (P : list A -> Prop) :
  P [] -> (forall a, P [a]) -> (forall a b, P [a; b]) ->
  (forall a b c l, P l -> P (a :: b :: c :: l)) ->
  forall l, P l.
Proof.
  intros H0 H1 H2 H3. fix IH 1.
  intros [|a [|b [|c l]]]; [exact H0|apply H1|apply H2|apply H3, IH].
Qed.

Lemma b64decode_encode (bs : list byte) : b64decode (b64encode bs) = Some bs.
Proof.
  induction bs as [|a|a b|a b c bs IH] using list_ind3.
  - reflexivity.
  - pose proof (sextets_bound _ 0 0 (to_N_lt a) eq_refl eq_refl)
      as (H0 & H1 & _ & _).
    cbn [b64encode b64decode sextets].
    rewrite !b64_value_char by assumption.
    change (b64_value "=") with (@None N). cbv iota beta.
    change (Ascii.eqb "=" "=") with true. cbn [andb octets].
    rewrite (octet_first _ 0) by (apply to_N_lt || reflexivity).
    now rewrite byte_of_to_N.
  - pose proof (sextets_bound _ _ 0 (to_N_lt a) (to_N_lt b) eq_refl)
      as (H0 & H1 & H2 & _).
    cbn [b64encode b64decode sextets].
    rewrite !b64_value_char by assumption.
    change (b64_value "=") with (@None N). cbv iota beta.
    change (Ascii.eqb "=" "=") with true. cbn [octets].
    rewrite octet_first by apply to_N_lt.
    rewrite (octet_second _ _ 0) by (apply to_N_lt || reflexivity).
    now rewrite !byte_of_to_N.
  - pose proof (sextets_bound _ _ _ (to_N_lt a) (to_N_lt b) (to_N_lt c))
      as (H0 & H1 & H2 & H3).
    cbn [b64encode b64decode sextets].
    rewrite !b64_value_char by assumption.
    cbn [octets].
    rewrite octet_first, octet_second, octet_third by apply to_N_lt.
    now rewrite IH, !byte_of_to_N.
Qed.

Lemma ascii_of_byte_of_ascii_list (cs : list ascii) :
  map ascii_of_byte (map byte_of_ascii cs) = cs.
Proof.
  induction cs as [|c cs IH]; simpl; [reflexivity|].
  now rewrite ascii_of_byte_of_ascii, IH.
Qed.

(** ** The round trip *)

Section RoundTrip.

Context {cipher : BlockCipher}.

Lemma decrypt_encrypt_payload (payload : json) (key : string) :
  Json.json_valid payload = true ->
  decrypt_payload (encrypt_payload payload key) key = Return payload.
Proof.
  intros Hvalid. unfold decrypt_payload, encrypt_payload.
  rewrite list_ascii_of_string_of_list_ascii, b64decode_encode.
  pose proof (whole_blocks_pad (map byte_of_ascii (Json.dumps payload)))
    as Hwhole.
  rewrite (whole_blocks_mod _ (ecb_encrypt_whole key _ Hwhole)).
  cbn [Nat.eqb negb].
  rewrite ecb_decrypt_encrypt by assumption.
  rewrite unpad_pad, ascii_of_byte_of_ascii_list.
  now rewrite JsonFacts.loads_dumps.
Qed.

End RoundTrip.

End CodecFacts.

(* ================================================================== *)
(** * The session protocol *)
(* ================================================================== *)

Module NetworkFacts.
Import network.

Lemma as_strings_map (names : list string) :
  as_strings (map JStr names) = Some names.
Proof.
  induction names as [|s names IH]; simpl; [reflexivity|]. now rewrite IH.
Qed.

Lemma json_valid_names (names : list string) :
  Json.json_valid (JArr (map JStr names)) = true.
Proof. induction names as [|s names IH]; [reflexivity|exact IH]. Qed.

Lemma json_valid_items (items : list json) :
  Json.json_valid (JArr items) = forallb Json.json_valid items.
Proof.
  induction items as [|x items IH]; [reflexivity|].
  rewrite JsonFacts.json_valid_arr, IH. reflexivity.
Qed.

Lemma json_valid_values (props : dict json) :
  Json.json_valid (JObj props) = true ->
  Json.json_valid (JArr (dict_values props)) = true.
Proof.
  rewrite JsonFacts.json_valid_obj, json_valid_items.
  intros H. apply andb_true_iff in H. destruct H as [_ H].
  unfold dict_values.
  induction props as [|[k v] props IH]; [reflexivity|].
  cbn [forallb map snd] in *. apply andb_true_iff in H.
  destruct H as [Hv Hrest]. now rewrite Hv, IH.
Qed.

Section WithWire.

Context {cipher : BlockCipher} {wire : Wire}.

(** An exchange that is answered with the encryption of a valid payload
    yields that payload. *)
Lemma exchange_answered (net : Network) (info : DeviceInfo)
    (request payload : json) (key : string) (answer : Packet) :
  net (host info) (port info)
    (envelope (Codec.encrypt_payload request key)) = Datagram answer ->
  pack answer = Some (Codec.encrypt_payload payload key) ->
  Json.json_valid payload = true ->
  exchange net info request key = Return payload.
Proof.
  intros Hnet Hpack Hvalid. unfold exchange. rewrite Hnet, Hpack.
  now apply CodecFacts.decrypt_encrypt_payload.
Qed.

Lemma exchange_timeout (net : Network) (info : DeviceInfo)
    (request : json) (key : string) :
  net (host info) (port info)
    (envelope (Codec.encrypt_payload request key)) = Timeout ->
  exchange net info request key = Raise TimeoutError.
Proof. intros Hnet. unfold exchange. now rewrite Hnet. Qed.

(** The command that [send_state] sends lists the keys of the map under
    [opt] and its values, in the same order, under [p]. *)
Lemma names_field_cmd_request (props : dict json) :
  names_field (cmd_request props) "opt" = Some (dict_keys props).
Proof. unfold names_field; cbn. apply as_strings_map. Qed.

Lemma values_field_cmd_request (props : dict json) :
  values_field (cmd_request props) "p" = Some (dict_values props).
Proof. reflexivity. Qed.

(** A payload that names a type other than [ty] is not of type [ty]. *)
Lemma has_type_other (ty : string) (payload named : json) :
  json_field payload "t" = Some named -> named <> JStr ty ->
  has_no_type payload || has_type ty payload = false.
Proof.
  intros Hfield Hne. unfold has_no_type, has_type. rewrite Hfield.
  destruct named as [| | |s| |]; try reflexivity.
  destruct (String.eqb_spec s ty); [congruence|reflexivity].
Qed.

End WithWire.

End NetworkFacts.

(* ================================================================== *)
(** * The codec and the three operations, as the spec states them *)
(* ================================================================== *)

Section ProtocolClaims.

Context {cipher : BlockCipher} {wire : network.Wire}.

(** C1. Decrypting, with the same key, what [encrypt_payload] made of a
    valid structure gives that structure back. *)
Theorem decrypt_encrypt_round_trip (payload : json) (key : string) :
  Json.json_valid payload = true ->
  Codec.decrypt_payload (Codec.encrypt_payload payload key) key
  = Return payload.
Proof.
  intros Hvalid. unfold Codec.decrypt_payload, Codec.encrypt_payload.
  (* base64 is undone first *)
  rewrite list_ascii_of_string_of_list_ascii, CodecFacts.b64decode_encode.
  (* the cipher text is made of whole blocks, each of which is undone *)
  pose proof (CodecFacts.whole_blocks_pad
                (map byte_of_ascii (Json.dumps payload))) as Hwhole.
  rewrite (CodecFacts.whole_blocks_mod _
             (CodecFacts.ecb_encrypt_whole key _ Hwhole)).
  cbn [Nat.eqb negb].
  rewrite CodecFacts.ecb_decrypt_encrypt by assumption.
  (* the padding comes off and the text is read back *)
  rewrite CodecFacts.unpad_pad, CodecFacts.ascii_of_byte_of_ascii_list.
  now rewrite JsonFacts.loads_dumps.
Qed.

(** C2. [bind] without a key: when the answer to the bind request is a
    packet whose [pack] is a [bindok] payload under the generic key, the key
    in that payload is returned; when no answer arrives in the window,
    [TimeoutError] is raised. *)
Theorem bind_device_returns_key
    (net : network.Network) (info : DeviceInfo) :
  let request :=
    network.envelope
      (Codec.encrypt_payload (network.bind_request info) network.GENERIC_KEY)
  in
  (forall (answer : network.Packet) (payload : json) (k : string),
     net (host info) (port info) request = network.Datagram answer ->
     network.pack answer
       = Some (Codec.encrypt_payload payload network.GENERIC_KEY) ->
     Json.json_valid payload = true ->
     network.json_field payload "t" = Some (JStr "bindok") ->
     network.json_field payload "key" = Some (JStr k) ->
     network.bind_device net info None = Return k)
  /\ (net (host info) (port info) request = network.Timeout ->
      network.bind_device net info None = Raise TimeoutError).
Proof.
  cbv zeta. split.
  - intros answer payload k Hnet Hpack Hvalid Htype Hkey.
    unfold network.bind_device.
    rewrite (NetworkFacts.exchange_answered net info _ payload _ answer)
      by assumption.
    unfold network.has_type. rewrite Htype, Hkey. reflexivity.
  - intros Hnet. unfold network.bind_device.
    now rewrite NetworkFacts.exchange_timeout.
Qed.

(** C3. [request_state]: when the answer to the status request carries the
    names [names] under [cols] and the values [values] under [dat], the
    result is the map that pairs them by position if the two lists have the
    same length, and [ProtocolError] if they have not; an answer of another
    type, one that names a type other than [dat] or lacks one of the two
    lists, is a [ProtocolError] as well. *)
Theorem request_state_zips
    (net : network.Network) (props : list string) (info : DeviceInfo)
    (key : string) (answer : network.Packet) (payload : json) :
  net (host info) (port info)
    (network.envelope
       (Codec.encrypt_payload (network.status_request props info) key))
  = network.Datagram answer ->
  network.pack answer = Some (Codec.encrypt_payload payload key) ->
  Json.json_valid payload = true ->
  (forall (names : list string) (values : list json),
     network.names_field payload "cols" = Some names ->
     network.values_field payload "dat" = Some values ->
     network.has_no_type payload || network.has_type "dat" payload = true ->
     network.request_state net props info key
     = if (List.length names =? List.length values)%nat
       then Return (dict_zip names values)
       else Raise ProtocolError)
  /\ (forall named : json,
       network.json_field payload "t" = Some named -> named <> JStr "dat" ->
       network.request_state net props info key = Raise ProtocolError)
  /\ (network.names_field payload "cols" = None
      \/ network.values_field payload "dat" = None ->
      network.request_state net props info key = Raise ProtocolError).
Proof.
  intros Hnet Hpack Hvalid.
  assert (Hanswer :
            network.exchange net info (network.status_request props info) key
            = Return payload)
    by now apply (NetworkFacts.exchange_answered net info _ payload _ answer).
  unfold network.request_state. rewrite Hanswer. split; [|split].
  - intros names values Hnames Hvalues Htype.
    rewrite Htype, Hnames, Hvalues. reflexivity.
  - intros named Hfield Hne.
    now rewrite (NetworkFacts.has_type_other "dat" payload named).
  - intros Hmissing.
    destruct (network.has_no_type payload || network.has_type "dat" payload);
      [|reflexivity].
    destruct Hmissing as [Hnames|Hvalues].
    + now rewrite Hnames.
    + rewrite Hvalues.
      now destruct (network.names_field payload "cols").
Qed.

(** C4, as amended. [send_state]: when the acknowledgment of the command
    names no type and carries the names [names] under [opt] and the values
    [values] under [val], the result is the map that pairs them by position
    if the two lists have the same length, and [ProtocolError] if they have
    not; when the acknowledgment repeats the names and the values of the
    command that was sent, the result is the map that was passed in; an
    answer that names a command type is a [ProtocolError]. *)
Theorem send_state_zips
    (net : network.Network) (props : dict json) (info : DeviceInfo)
    (key : string) (answer : network.Packet) (payload : json) :
  net (host info) (port info)
    (network.envelope (Codec.encrypt_payload (network.cmd_request props) key))
  = network.Datagram answer ->
  network.pack answer = Some (Codec.encrypt_payload payload key) ->
  Json.json_valid payload = true ->
  (forall (names : list string) (values : list json),
     network.has_no_type payload = true ->
     network.names_field payload "opt" = Some names ->
     network.values_field payload "val" = Some values ->
     network.send_state net props info key
     = if (List.length names =? List.length values)%nat
       then Return (dict_zip names values)
       else Raise ProtocolError)
  /\ (NoDup (dict_keys props) ->
      network.has_no_type payload = true ->
      network.names_field payload "opt"
      = network.names_field (network.cmd_request props) "opt" ->
      network.values_field payload "val"
      = network.values_field (network.cmd_request props) "p" ->
      network.send_state net props info key = Return props)
  /\ (forall named : json,
       network.json_field payload "t" = Some named ->
       network.send_state net props info key = Raise ProtocolError).
Proof.
  intros Hnet Hpack Hvalid.
  assert (Hanswer :
            network.exchange net info (network.cmd_request props) key
            = Return payload)
    by now apply (NetworkFacts.exchange_answered net info _ payload _ answer).
  unfold network.send_state. rewrite Hanswer. split; [|split].
  - intros names values Htype Hnames Hvalues.
    rewrite Htype, Hnames, Hvalues. reflexivity.
  - intros Hnodup Htype Hnames Hvalues.
    rewrite NetworkFacts.names_field_cmd_request in Hnames.
    rewrite NetworkFacts.values_field_cmd_request in Hvalues.
    rewrite Htype, Hnames, Hvalues. unfold network.zip_fields.
    unfold dict_keys, dict_values at 1. rewrite !length_map, Nat.eqb_refl.
    f_equal. now apply dict_zip_keys_values.
  - intros named Hfield. unfold network.has_no_type. now rewrite Hfield.
Qed.

End ProtocolClaims.

(* ================================================================== *)
(** * The device facade *)
(* ================================================================== *)

Import device.

Section DeviceFacts.

Context {props_enum : PropsEnum} {net_iface : nethelper.Interface}.

(** The outcome of a call whose returned value is dropped. *)
Definition discard {A} (r : result A) : result unit :=
  match r with
  | Return _ => Return tt
  | Raise e => Raise e
  end.

Lemma cached_after_set (d : Device) (m : dict json) (k : string) (v : json) :
  cached (with_properties d (Some (dict_set m k v))) k = v.
Proof. unfold cached, cache; simpl. now rewrite dict_get_set_same. Qed.

(** [set_property] begins by putting an empty dict where there is no usable
    one; the dict it then works on is [cache]. *)
Lemma set_property_unfold (w : World) (p : Props) (v : json) :
  set_property p v w =
  if py_eq (cached (self w) (value p)) v
  then (Return tt, with_self w (with_properties (self w) (Some (cache (self w)))))
  else
    let d := with_properties (self w)
               (Some (dict_set (cache (self w)) (value p) v)) in
    let '(r, n) := nethelper.send_state [(value p, v)] (device_info d)
                     (device_key d) (net w) in
    (discard r,
     {| self := d; net := n;
        calls := calls w ++
                 [nethelper.SendState [(value p, v)] (device_info d)
                    (device_key d)] |}).
Proof.
  destruct w as [[info key props] n cs].
  unfold set_property, bind_M, get_self, set_properties, ret, call, cached,
    cache, with_self, with_properties.
  destruct props as [[|kv m]|]; cbn -[py_eq dict_get dict_set];
    (destruct (py_eq _ v); [reflexivity|]);
    cbn -[py_eq dict_get dict_set];
    destruct (nethelper.send_state _ _ _ _) as [[a|e] n']; reflexivity.
Qed.

(** [update_state] on a device without a usable key raises
    [DeviceNotBoundError] and touches nothing. *)
Lemma update_state_not_bound (w : World) :
  key_truthy (device_key (self w)) = false ->
  update_state w = (Raise DeviceNotBoundError, w).
Proof.
  unfold update_state, bind_M, get_self, key_truthy; simpl.
  destruct (device_key (self w)) as [k|]; [|reflexivity].
  destruct (String.eqb k ""); [reflexivity|discriminate].
Qed.

(** [bind] without a key stores the key that [nethelper.bind_device]
    returns, and stores nothing when that call raises. *)
Lemma bind_without_key (w : World) :
  bind None w =
  let '(r, n) := nethelper.bind_device (device_info (self w)) (net w) in
  let log := calls w ++ [nethelper.BindDevice (device_info (self w))] in
  match r with
  | Return k =>
      (Return tt,
       {| self := with_key (self w) k; net := n; calls := log |})
  | Raise e => (Raise e, {| self := self w; net := n; calls := log |})
  end.
Proof.
  unfold bind, bind_M, get_self, call. cbn [key_truthy].
  destruct (nethelper.bind_device _ _) as [[k|e] n]; reflexivity.
Qed.

(** C5, the part that the code does not keep. [update_state] raises
    [DeviceNotBoundError] on a device without a key (see
    [update_state_not_bound]), but [set_property] has no such check: on a
    device whose key is [None], a value that differs from the cached one is
    written to the cache and handed to [nethelper.send_state] with the key
    [None], and the outcome of that call is the outcome of the method. *)
Theorem set_property_without_key (w : World) (p : Props) (v : json) :
  device_key (self w) = None ->
  py_eq (cached (self w) (value p)) v = false ->
  let '(r, w') := set_property p v w in
  calls w' = calls w ++
             [nethelper.SendState [(value p, v)] (device_info (self w)) None]
  /\ cached (self w') (value p) = v
  /\ r = discard (fst (nethelper.send_state [(value p, v)]
                         (device_info (self w)) None (net w))).
Proof.
  intros Hkey Hneq. rewrite set_property_unfold, Hneq.
  cbn -[dict_set]. rewrite Hkey.
  destruct (nethelper.send_state _ _ _ _) as [r n].
  cbn -[dict_set]. repeat split.
  apply cached_after_set.
Qed.

(** C6, as amended. [bind] called with a key that is not empty makes no
    network call and stores that very key; called with no key or with the
    empty string it calls [nethelper.bind_device]; and a network call during
    [bind] means that the key was absent or empty. *)
Theorem bind_with_key (w : World) :
  (forall k : string, k <> "" ->
     bind (Some k) w = (Return tt, with_self w (with_key (self w) (Some k))))
  /\ (forall key : option string, key = None \/ key = Some "" ->
       calls (snd (bind key w)) =
       calls w ++ [nethelper.BindDevice (device_info (self w))])
  /\ (forall key : option string, calls (snd (bind key w)) <> calls w ->
       key = None \/ key = Some "").
Proof.
  assert (Hcall : forall key, key_truthy key = false ->
            calls (snd (bind key w)) =
            calls w ++ [nethelper.BindDevice (device_info (self w))]).
  { intros key Hk. unfold bind, bind_M, get_self, call. rewrite Hk.
    destruct (nethelper.bind_device _ _) as [[k'|e] n]; reflexivity. }
  split; [|split].
  - intros k Hk. unfold bind, bind_M, get_self, key_truthy.
    destruct (String.eqb_spec k ""); [contradiction|reflexivity].
  - intros key [->| ->]; apply Hcall; reflexivity.
  - intros [k|] Hc; [|now left].
    destruct (String.eqb_spec k "") as [->|Hk]; [now right|].
    exfalso. apply Hc. unfold bind, bind_M, get_self, key_truthy.
    destruct (String.eqb_spec k ""); [contradiction|reflexivity].
Qed.

(** C7. On a device with a key, when [nethelper.request_state] returns the
    map [m], [update_state] has asked for the wire name of every member of
    [Props], in one call made with the device's info and key, and has put
    [m] in place of the cache: [get_property] then reads every name from
    [m]. *)
Theorem update_state_replaces_cache
    (w : World) (k : string) (m : dict json) (n' : nethelper.NetState) :
  device_key (self w) = Some k ->
  k <> "" ->
  nethelper.request_state (map value Props_members) (device_info (self w)) k
    (net w) = (Return m, n') ->
  let '(r, w') := update_state w in
  r = Return tt
  /\ calls w' = calls w ++
               [nethelper.RequestState (map value Props_members)
                  (device_info (self w)) k]
  /\ (forall p : Props, In (value p) (map value Props_members))
  /\ self w' = with_properties (self w) (Some m)
  /\ net w' = n'
  /\ (forall p : Props,
        get_property (self w') p =
        match dict_get m (value p) with Some v => v | None => JNull end).
Proof.
  intros Hkey Hk Hreq.
  unfold update_state, bind_M, get_self, call, set_properties; simpl.
  rewrite Hkey. destruct (String.eqb_spec k ""); [contradiction|].
  rewrite Hreq. simpl. repeat split.
  - intros p. apply in_map, Props_members_all.
  - intros p. unfold get_property; simpl.
    destruct m as [|kv m]; reflexivity.
Qed.

(** C8. [set_property] compares the cached value of the name with the new
    one. If they are equal it returns without a network call and the cache
    holds what it held; otherwise the new value is stored under the name and
    one [send_state] call is made, for the map with that single entry. *)
Theorem set_property_spec (w : World) (p : Props) (v : json) :
  let '(r, w') := set_property p v w in
  if py_eq (cached (self w) (value p)) v
  then r = Return tt
       /\ calls w' = calls w
       /\ net w' = net w
       /\ cache (self w') = cache (self w)
       /\ (forall q : Props, get_property (self w') q = get_property (self w) q)
  else cache (self w') = dict_set (cache (self w)) (value p) v
       /\ cached (self w') (value p) = v
       /\ calls w' = calls w ++
                    [nethelper.SendState [(value p, v)]
                       (device_info (self w)) (device_key (self w))].
Proof.
  rewrite set_property_unfold.
  destruct (py_eq (cached (self w) (value p)) v).
  - cbn. repeat split.
    intros q. unfold get_property, cache; simpl.
    destruct (_properties (self w)) as [[|kv m]|]; reflexivity.
  - cbn -[dict_set]. destruct (nethelper.send_state _ _ _ _) as [r n].
    cbn -[dict_set]. repeat split. apply cached_after_set.
Qed.

(** C9. Whatever [set_property] does, the cached value of every other name
    stays as it was. When the value differs from the cached one, the call of
    [send_state] starts from a world whose cache already holds the new
    value; so if that call raises, the exception is the outcome and the
    cache keeps the new value. *)
Theorem set_property_frame (w : World) (p : Props) (v : json) :
  let w' := snd (set_property p v w) in
  (forall k : string, k <> value p ->
     dict_get (cache (self w')) k = dict_get (cache (self w)) k)
  /\ (py_eq (cached (self w) (value p)) v = false ->
      let d := with_properties (self w)
                 (Some (dict_set (cache (self w)) (value p) v)) in
      let c := nethelper.SendState [(value p, v)] (device_info (self w))
                 (device_key (self w)) in
      set_property p v w =
      bind_M (call c (nethelper.send_state [(value p, v)]
                        (device_info (self w)) (device_key (self w))))
             (fun _ => ret tt) (with_self w d)
      /\ forall (e : exn) (n' : nethelper.NetState),
           nethelper.send_state [(value p, v)] (device_info (self w))
             (device_key (self w)) (net w) = (Raise e, n') ->
           fst (set_property p v w) = Raise e
           /\ cached (self w') (value p) = v).
Proof.
  cbv zeta. rewrite set_property_unfold. split.
  - intros k Hk. destruct (py_eq (cached (self w) (value p)) v).
    + reflexivity.
    + cbn -[dict_set]. destruct (nethelper.send_state _ _ _ _) as [r n].
      cbn -[dict_set]. now apply dict_get_set_other.
  - intros Hneq. rewrite Hneq. split.
    + unfold bind_M, call, ret, with_self. cbn -[dict_set].
      destruct (nethelper.send_state _ _ _ _) as [[a|e] n]; reflexivity.
    + intros e n' Hsend. cbn -[dict_set]. rewrite Hsend. cbn -[dict_set].
      split; [reflexivity|apply cached_after_set].
Qed.

(** C10. On the device that [Device(info)] builds, whether it has since
    been given a key or not ([key] is [None] right after construction),
    [get_property] yields [None] for every name; every getter of the form
    [bool(...)] returns [False], and every getter of the form [int(...)]
    raises [TypeError]. *)
Theorem fresh_device_getters (info : DeviceInfo) (key : option string) :
  let d := with_key (Device_init info) key in
  with_key (Device_init info) None = Device_init info
  /\ (forall p : Props, get_property d p = JNull)
  /\ (forall p : Props, bool_getter p d = Return false)
  /\ (forall p : Props, int_getter p d = Raise TypeError)
  /\ (power d = Return false /\ fresh_air d = Return false
      /\ xfan d = Return false /\ anion d = Return false
      /\ sleep d = Return false /\ light d = Return false
      /\ quiet d = Return false /\ turbo d = Return false
      /\ steady_heat d = Return false /\ power_save d = Return false)
  /\ (mode d = Raise TypeError /\ target_temperature d = Raise TypeError
      /\ temperature_units d = Raise TypeError
      /\ fan_speed d = Raise TypeError
      /\ horizontal_swing d = Raise TypeError
      /\ vertical_swing d = Raise TypeError).
Proof.
  cbv zeta. repeat split.
Qed.

End DeviceFacts.

(* ================================================================== *)
(** * More on the device facade *)
(* ================================================================== *)

Section DeviceExtras.

Context {props_enum : PropsEnum} {net_iface : nethelper.Interface}.

(** ** What the getters read *)

(** [get_property] reads the cached value, [None] when there is none. *)
Lemma get_property_cached (d : Device) (p : Props) :
  get_property d p = cached d (value p).
Proof.
  unfold get_property, cached, cache.
  destruct (_properties d) as [[|kv m]|]; reflexivity.
Qed.

(** A cached value equal to the integer [n] in Python's sense is read as [n]
    by [int] and as [n != 0] by [bool]. *)
Lemma py_eq_int_reads (c : json) (n : Z) :
  py_eq c (JNum n) = true ->
  py_int c = Return n /\ py_bool c = negb (Z.eqb n 0).
Proof.
  destruct c as [|b|m|s|items|fields]; simpl; try discriminate.
  - intros H. apply Z.eqb_eq in H. subst n. now destruct b.
  - intros H. apply Z.eqb_eq in H. now subst m.
Qed.

(** The cached value of the name after [set_property] is equal to the value
    that was passed, whichever branch was taken and whatever the send did. *)
Lemma cached_after_set_property (w : World) (p : Props) (v : json) :
  py_eq v v = true ->
  py_eq (cached (self (snd (set_property p v w))) (value p)) v = true.
Proof.
  intros Hrefl. rewrite set_property_unfold.
  destruct (py_eq (cached (self w) (value p)) v) eqn:Heq.
  - cbn. unfold cached, cache in *. cbn. exact Heq.
  - cbn -[dict_set]. destruct (nethelper.send_state _ _ _ _) as [r n].
    cbn -[dict_set]. now rewrite cached_after_set.
Qed.

(** After [set_property] the attribute holds a dict, the one [cache] shows. *)
Lemma properties_after_set_property (w : World) (p : Props) (v : json) :
  _properties (self (snd (set_property p v w)))
  = Some (cache (self (snd (set_property p v w)))).
Proof.
  rewrite set_property_unfold.
  destruct (py_eq (cached (self w) (value p)) v).
  - reflexivity.
  - cbn -[dict_set]. destruct (nethelper.send_state _ _ _ _) as [r n].
    reflexivity.
Qed.

(** [set_property] leaves the cached value of every other wire name. *)
Lemma cached_other_after_set_property
    (w : World) (p : Props) (v : json) (k : string) :
  k <> value p ->
  cached (self (snd (set_property p v w))) k = cached (self w) k.
Proof.
  intros Hk. rewrite set_property_unfold.
  destruct (py_eq (cached (self w) (value p)) v).
  - reflexivity.
  - cbn -[dict_set]. destruct (nethelper.send_state _ _ _ _) as [r n].
    unfold cached, cache. cbn -[dict_set].
    now rewrite dict_get_set_other.
Qed.

(** An assignment to a property is [set_property] with the integer that
    [int] makes of the value, or the exception of [int]. *)
Lemma setter_unfold (w : World) (p : Props) (v : json) :
  setter p v w =
  match py_int v with
  | Return n => set_property p (JNum n) w
  | Raise e => (Raise e, w)
  end.
Proof.
  unfold setter, bind_M, lift. now destruct (py_int v).
Qed.

(** ** [update_state] *)

(** With a key that is not empty, [update_state] makes one call. *)
Lemma update_state_makes_call (w : World) (k : string) :
  device_key (self w) = Some k -> k <> "" ->
  calls (snd (update_state w)) =
  calls w ++ [nethelper.RequestState (map value Props_members)
                (device_info (self w)) k].
Proof.
  intros Hkey Hk.
  unfold update_state, bind_M, get_self, call, set_properties; simpl.
  rewrite Hkey. destruct (String.eqb_spec k "") as [->|_]; [contradiction|].
  destruct (nethelper.request_state _ _ _ _) as [[m|e] n']; reflexivity.
Qed.

(** X1. [update_state] stops at its guard exactly when the key is [None] or
    the empty string: it then raises [DeviceNotBoundError] and leaves the
    device, the network and the log as they were. With any other key one
    call of [nethelper.request_state] is made, with that key. *)
Theorem update_state_guard (w : World) :
  (key_truthy (device_key (self w)) = false ->
   update_state w = (Raise DeviceNotBoundError, w))
  /\ (forall k : string,
        device_key (self w) = Some k -> k <> "" ->
        calls (snd (update_state w)) =
        calls w ++ [nethelper.RequestState (map value Props_members)
                      (device_info (self w)) k])
  /\ (calls (snd (update_state w)) = calls w <->
      key_truthy (device_key (self w)) = false).
Proof.
  pose proof (update_state_makes_call w) as Hcall.
  split; [apply update_state_not_bound|]. split; [exact Hcall|]. split.
  - intros Hsame. unfold key_truthy.
    destruct (device_key (self w)) as [k|] eqn:Hkey; [|reflexivity].
    destruct (String.eqb_spec k "") as [->|Hk]; [reflexivity|].
    exfalso. rewrite (Hcall k eq_refl Hk) in Hsame.
    apply (f_equal (@List.length _)) in Hsame.
    rewrite length_app in Hsame. simpl in Hsame. lia.
  - intros Hkey. now rewrite update_state_not_bound.
Qed.

(** X2. When [nethelper.request_state] raises, [update_state] raises the
    same exception and the device is what it was: the cache keeps the values
    of the last successful update. The call is in the log. *)
Theorem update_state_request_fails
    (w : World) (k : string) (e : exn) (n' : nethelper.NetState) :
  device_key (self w) = Some k ->
  k <> "" ->
  nethelper.request_state (map value Props_members) (device_info (self w)) k
    (net w) = (Raise e, n') ->
  update_state w =
  (Raise e,
   {| self := self w; net := n';
      calls := calls w ++
               [nethelper.RequestState (map value Props_members)
                  (device_info (self w)) k] |}).
Proof.
  intros Hkey Hk Hreq.
  unfold update_state, bind_M, get_self, call; simpl.
  rewrite Hkey. destruct (String.eqb_spec k ""); [contradiction|].
  now rewrite Hreq.
Qed.

(** ** The properties *)

(** X3. An assignment of a value that [int] refuses raises the exception of
    [int], [TypeError] for [None], a list or a dict and [ValueError] for a
    string that is no number, before the cache or the network is touched. *)
Theorem setter_refuses_non_numbers (w : World) (p : Props) (v : json) :
  (forall e : exn, py_int v = Raise e -> setter p v w = (Raise e, w))
  /\ (forall e : exn, fst (setter p v w) = Raise e ->
      calls (snd (setter p v w)) = calls w -> py_int v = Raise e)
  /\ setter p JNull w = (Raise TypeError, w)
  /\ (forall items, setter p (JArr items) w = (Raise TypeError, w))
  /\ (forall fields, setter p (JObj fields) w = (Raise TypeError, w))
  /\ (forall s, int_of_str s = None ->
      setter p (JStr s) w = (Raise ValueError, w)).
Proof.
  split; [|split; [|repeat split]].
  - intros e He. now rewrite setter_unfold, He.
  - intros e. rewrite setter_unfold.
    destruct (py_int v) as [n|e'] eqn:Hint.
    + rewrite set_property_unfold.
      destruct (py_eq (cached (self w) (value p)) (JNum n)).
      * discriminate.
      * cbn -[dict_set].
        destruct (nethelper.send_state _ _ _ _) as [r net'].
        cbn -[dict_set]. intros _ Hsame. exfalso.
        apply (f_equal (@List.length _)) in Hsame.
        rewrite length_app in Hsame. simpl in Hsame. lia.
    + cbn. intros He _. now inversion He.
  - intros s Hs. rewrite setter_unfold. cbn [py_int]. now rewrite Hs.
Qed.

(** X4. After an assignment of a value that [int] turns into [n], the
    property reads as [n] through a getter of the form [int(...)] and as
    [n != 0] through one of the form [bool(...)]; this holds whether the
    send returned or raised, and also when a cached [True] or [False] made
    the assignment return early. *)
Theorem setter_then_getter (w : World) (p : Props) (v : json) (n : Z) :
  py_int v = Return n ->
  let d := self (snd (setter p v w)) in
  int_getter p d = Return n
  /\ bool_getter p d = Return (negb (Z.eqb n 0)).
Proof.
  intros Hint. cbv zeta. rewrite setter_unfold, Hint.
  unfold int_getter, bool_getter. rewrite get_property_cached.
  pose proof (cached_after_set_property w p (JNum n) (Z.eqb_refl n)) as Heq.
  apply py_eq_int_reads in Heq. destruct Heq as [Hi Hb].
  now rewrite Hi, Hb.
Qed.

(** X5. An assignment to one property, or [set_property] on it, leaves what
    every getter reads for a property with another wire name. *)
Theorem setter_keeps_other_properties
    (w : World) (p q : Props) (v : json) :
  value q <> value p ->
  (get_property (self (snd (set_property p v w))) q = get_property (self w) q)
  /\ (let d := self (snd (setter p v w)) in
      get_property d q = get_property (self w) q
      /\ int_getter q d = int_getter q (self w)
      /\ bool_getter q d = bool_getter q (self w)).
Proof.
  intros Hne.
  assert (Hset : forall u, get_property (self (snd (set_property p u w))) q
                           = get_property (self w) q).
  { intros u. rewrite !get_property_cached.
    now apply cached_other_after_set_property. }
  split; [apply Hset|]. cbv zeta.
  assert (Hget : get_property (self (snd (setter p v w))) q
                 = get_property (self w) q).
  { rewrite setter_unfold. destruct (py_int v); [apply Hset|reflexivity]. }
  unfold int_getter, bool_getter. now rewrite Hget.
Qed.

(** X6. Repeating [set_property] with the same name and a value that is
    equal to itself under [==] does nothing: the second call returns without
    a network call and leaves the world of the first, also when the send of
    the first call raised. So such a value, once its send has failed, is not
    sent again by setting it again. The comparison of line 146 is the only
    thing asked of the value: a value that is not equal to itself, as NaN
    is, fails it on every call and is sent every time. *)
Theorem set_property_twice (w : World) (p : Props) (v : json) :
  py_eq v v = true ->
  let w1 := snd (set_property p v w) in
  set_property p v w1 = (Return tt, w1).
Proof.
  intros Hrefl. cbv zeta.
  pose proof (cached_after_set_property w p v Hrefl) as Heq.
  pose proof (properties_after_set_property w p v) as Hprops.
  destruct (snd (set_property p v w)) as [[info key props] n cs].
  rewrite set_property_unfold. cbn [self] in *. rewrite Heq.
  unfold with_self, with_properties. cbn in *. now rewrite Hprops.
Qed.

(** X7. A name that the cache does not hold, be it that the unit did not
    report it, reads as [None]: its getter of the form [bool(...)] returns
    [False] and its getter of the form [int(...)] raises [TypeError]. *)
Theorem getters_of_missing_name (d : Device) (p : Props) :
  dict_get (cache d) (value p) = None ->
  get_property d p = JNull
  /\ bool_getter p d = Return false
  /\ int_getter p d = Raise TypeError.
Proof.
  intros Hmissing. unfold bool_getter, int_getter.
  rewrite get_property_cached. unfold cached. rewrite Hmissing.
  repeat split.
Qed.

(** ** [bind] *)

(** X8. When [nethelper.bind_device] raises, [bind] raises the same
    exception and the device is what it was: a key from an earlier binding
    stays, and so does the cache. *)
Theorem bind_device_fails
    (w : World) (key : option string) (e : exn) (n' : nethelper.NetState) :
  key_truthy key = false ->
  nethelper.bind_device (device_info (self w)) (net w) = (Raise e, n') ->
  bind key w =
  (Raise e,
   {| self := self w; net := n';
      calls := calls w ++ [nethelper.BindDevice (device_info (self w))] |}).
Proof.
  intros Hkey Hbind. unfold bind, bind_M, get_self, call. rewrite Hkey.
  now rewrite Hbind.
Qed.

(** X9. [bind] followed by [update_state]: after [bind] with a key that is
    not empty the request is made with that key; after [bind] without a key
    it is made with the key that [nethelper.bind_device] returned, unless
    that is [None] or empty, in which case [update_state] raises
    [DeviceNotBoundError] and makes no call. *)
Theorem bind_then_update_state (w : World) :
  (forall k : string, k <> "" ->
     calls (snd (update_state (snd (bind (Some k) w)))) =
     calls w ++ [nethelper.RequestState (map value Props_members)
                   (device_info (self w)) k])
  /\ (forall (key k' : option string) (n' : nethelper.NetState),
        key_truthy key = false ->
        nethelper.bind_device (device_info (self w)) (net w)
          = (Return k', n') ->
        let w1 := snd (bind key w) in
        device_key (self w1) = k'
        /\ (forall k : string, k' = Some k -> k <> "" ->
            calls (snd (update_state w1)) =
            calls w ++ [nethelper.BindDevice (device_info (self w));
                        nethelper.RequestState (map value Props_members)
                          (device_info (self w)) k])
        /\ (key_truthy k' = false ->
            update_state w1 = (Raise DeviceNotBoundError, w1))).
Proof.
  split.
  - intros k Hk.
    assert (Hbind : bind (Some k) w
                    = (Return tt, with_self w (with_key (self w) (Some k)))).
    { unfold bind, bind_M, get_self, key_truthy.
      destruct (String.eqb_spec k ""); [contradiction|reflexivity]. }
    rewrite Hbind. cbn [snd].
    now rewrite (update_state_makes_call
                   (with_self w (with_key (self w) (Some k))) k eq_refl Hk).
  - intros key k' n' Hkey Hbind. cbv zeta.
    assert (Hw1 : bind key w
                  = (Return tt,
                     {| self := with_key (self w) k'; net := n';
                        calls := calls w ++
                                 [nethelper.BindDevice
                                    (device_info (self w))] |})).
    { unfold bind, bind_M, get_self, call, set_device_key. rewrite Hkey.
      now rewrite Hbind. }
    rewrite Hw1. cbn [snd]. split; [reflexivity|]. split.
    + intros k -> Hk.
      erewrite update_state_makes_call; [|reflexivity|exact Hk].
      cbn. now rewrite <- app_assoc.
    + intros Hk'. now apply update_state_not_bound.
Qed.

End DeviceExtras.

(** ** Sequences of calls *)

Section RunFacts.

Context {props_enum : PropsEnum} {net_iface : nethelper.Interface}.

Import device_runs.

(** What one call may change, method by method. [more] is what the call
    adds to the log. *)
Record step_frame (w w' : World) (more : list nethelper.Call) : Prop := {
  frame_info : device_info (self w') = device_info (self w);
  frame_calls : calls w' = calls w ++ more;
  frame_one : List.length more <= 1
}.

Lemma bind_frame (key : option string) (w : World) :
  exists more,
    step_frame w (snd (bind key w)) more
    /\ _properties (self (snd (bind key w))) = _properties (self w)
    /\ more = (if key_truthy key then []
               else [nethelper.BindDevice (device_info (self w))]).
Proof.
  unfold bind, bind_M, get_self, call, set_device_key.
  destruct (key_truthy key).
  - exists []. cbn. repeat split; auto. now rewrite app_nil_r.
  - exists [nethelper.BindDevice (device_info (self w))].
    destruct (nethelper.bind_device _ _) as [[k|e] n];
      cbn; repeat split; auto.
Qed.

Lemma update_state_frame (w : World) :
  exists more,
    step_frame w (snd (update_state w)) more
    /\ device_key (self (snd (update_state w))) = device_key (self w)
    /\ (key_truthy (device_key (self w)) = false -> more = []).
Proof.
  unfold update_state, bind_M, get_self, call, set_properties, raise,
    key_truthy.
  destruct (device_key (self w)) as [k|] eqn:Hkey; cbn.
  - destruct (String.eqb k "") eqn:Hk; cbn.
    + exists []. repeat split; auto. now rewrite app_nil_r.
    + exists [nethelper.RequestState (map value Props_members)
                (device_info (self w)) k].
      destruct (nethelper.request_state _ _ _ _) as [[m|e] n];
        cbn; repeat split; auto; discriminate.
  - exists []. repeat split; auto. now rewrite app_nil_r.
Qed.

Lemma set_property_frame_step (p : Props) (v : json) (w : World) :
  exists more,
    step_frame w (snd (set_property p v w)) more
    /\ device_key (self (snd (set_property p v w))) = device_key (self w)
    /\ Forall (fun c => exists pm,
                 c = nethelper.SendState pm (device_info (self w))
                       (device_key (self w))) more.
Proof.
  rewrite set_property_unfold.
  destruct (py_eq (cached (self w) (value p)) v).
  - exists []. cbn. repeat split; auto. now rewrite app_nil_r.
  - cbn -[dict_set]. destruct (nethelper.send_state _ _ _ _) as [r n].
    eexists. cbn -[dict_set]. repeat split; auto.
    constructor; [|constructor]. now eexists.
Qed.

Lemma setter_frame_step (p : Props) (v : json) (w : World) :
  exists more,
    step_frame w (snd (setter p v w)) more
    /\ device_key (self (snd (setter p v w))) = device_key (self w)
    /\ Forall (fun c => exists pm,
                 c = nethelper.SendState pm (device_info (self w))
                       (device_key (self w))) more.
Proof.
  rewrite setter_unfold. destruct (py_int v) as [n|e].
  - apply set_property_frame_step.
  - exists []. cbn. repeat split; auto. now rewrite app_nil_r.
Qed.

(** X10. Whatever calls are made on a device, in whatever order and
    whatever they raise: its [device_info] never changes, every call makes
    at most one call into [nethelper], and nothing is ever taken from the
    log. Calls of [bind] alone leave the cache as it is. *)
Theorem run_invariants (ops : list Op) (w : World) :
  device_info (self (run ops w)) = device_info (self w)
  /\ (exists more,
        calls (run ops w) = calls w ++ more
        /\ List.length more <= List.length ops)
  /\ (forallb is_bind ops = true ->
      _properties (self (run ops w)) = _properties (self w)).
Proof.
  revert w. induction ops as [|op ops IH]; intros w.
  - cbn. repeat split. exists []. now rewrite app_nil_r.
  - cbn [run]. destruct (IH (snd (step op w))) as (Hinfo & Hcalls & Hprops).
    destruct Hcalls as (more' & Hmore' & Hlen').
    assert (Hstep : exists more, step_frame w (snd (step op w)) more).
    { destruct op as [key| |p v|p v]; cbn [step].
      - destruct (bind_frame key w) as (more & H & _). now exists more.
      - destruct (update_state_frame w) as (more & H & _). now exists more.
      - destruct (set_property_frame_step p v w) as (more & H & _).
        now exists more.
      - destruct (setter_frame_step p v w) as (more & H & _).
        now exists more. }
    destruct Hstep as (more & [Hi Hc Hone]).
    split; [congruence|]. split.
    + exists (more ++ more'). rewrite Hmore', Hc, <- app_assoc.
      split; [reflexivity|]. rewrite length_app. cbn [List.length]. lia.
    + intros Hbinds. cbn [forallb] in Hbinds.
      apply andb_true_iff in Hbinds. destruct Hbinds as [Hop Hrest].
      rewrite (Hprops Hrest).
      destruct op as [key| |p v|p v]; try discriminate Hop. cbn [step].
      now destruct (bind_frame key w) as (? & _ & Hp & _).
Qed.

(** X11. As long as [bind] is not called, the key of a device stays what it
    is. For a device whose key is [None] this means: [update_state] never
    reaches the network, and every call that does is a [send_state] with
    the key [None]. *)
Theorem run_without_bind (ops : list Op) (w : World) :
  forallb (fun op => negb (is_bind op)) ops = true ->
  device_key (self (run ops w)) = device_key (self w)
  /\ (device_key (self w) = None ->
      exists more,
        calls (run ops w) = calls w ++ more
        /\ Forall (fun c => exists pm,
                     c = nethelper.SendState pm (device_info (self w)) None)
             more).
Proof.
  revert w. induction ops as [|op ops IH]; intros w Hops.
  - cbn. split; [reflexivity|]. intros _. exists [].
    now rewrite app_nil_r.
  - cbn [forallb] in Hops. apply andb_true_iff in Hops.
    destruct Hops as [Hop Hrest]. cbn [run].
    destruct (IH (snd (step op w)) Hrest) as [Hkey Hsends].
    assert (Hstep : exists more,
              step_frame w (snd (step op w)) more
              /\ device_key (self (snd (step op w))) = device_key (self w)
              /\ (device_key (self w) = None ->
                  Forall (fun c => exists pm,
                            c = nethelper.SendState pm (device_info (self w))
                                  None) more)).
    { destruct op as [key| |p v|p v]; try discriminate Hop; cbn [step].
      - destruct (update_state_frame w) as (more & H & Hk & Hnone).
        exists more. split; [exact H|]. split; [exact Hk|].
        intros Hno. rewrite Hnone; [constructor|]. now rewrite Hno.
      - destruct (set_property_frame_step p v w) as (more & H & Hk & Hall).
        exists more. split; [exact H|]. split; [exact Hk|].
        intros Hno. now rewrite <- Hno.
      - destruct (setter_frame_step p v w) as (more & H & Hk & Hall).
        exists more. split; [exact H|]. split; [exact Hk|].
        intros Hno. now rewrite <- Hno. }
    destruct Hstep as (more & [Hi Hc Hone] & Hk & Hall).
    split; [congruence|]. intros Hnone.
    destruct Hsends as (more' & Hmore' & Hall'); [congruence|].
    exists (more ++ more'). rewrite Hmore', Hc, <- app_assoc.
    split; [reflexivity|]. apply Forall_app. split; [now apply Hall|].
    now rewrite <- Hi.
Qed.

End RunFacts.

(** ** The enumerations *)

Section EnumFacts.

Context {T : Type} (members : list T) (value : T -> Z).

(** A member is found under its own value when no two members share a
    value, which is what the decorator [unique] demands. *)
Lemma enum_lookup_value (m : T) :
  NoDup (map value members) -> In m members ->
  enum_lookup members value (value m) = Return m.
Proof.
  unfold enum_lookup.
  induction members as [|a rest IH]; intros Hnd Hin; [contradiction|].
  cbn [find map] in *. inversion Hnd as [|? ? Hnotin Hnd']; subst.
  destruct (Z.eqb_spec (value a) (value m)) as [Heq|Hne].
  - destruct Hin as [->|Hin]; [reflexivity|].
    exfalso. apply Hnotin. rewrite Heq. now apply in_map.
  - destruct Hin as [->|Hin]; [contradiction|]. now apply IH.
Qed.

(** What is found under [n] has the value [n]. *)
Lemma enum_lookup_sound (n : Z) (m : T) :
  enum_lookup members value n = Return m -> value m = n /\ In m members.
Proof.
  unfold enum_lookup. destruct (find _ members) as [m'|] eqn:Hfind;
    [|discriminate].
  intros H. inversion H; subst. apply find_some in Hfind.
  destruct Hfind as [Hin Heq]. apply Z.eqb_eq in Heq. now split.
Qed.

(** Under a number that is no member's value nothing is found. *)
Lemma enum_lookup_unknown (n : Z) :
  ~ In n (map value members) ->
  enum_lookup members value n = Raise ValueError.
Proof.
  intros Hnot. unfold enum_lookup.
  destruct (find _ members) as [m|] eqn:Hfind; [|reflexivity].
  apply find_some in Hfind. destruct Hfind as [Hin Heq].
  apply Z.eqb_eq in Heq. exfalso. apply Hnot. rewrite <- Heq.
  now apply in_map.
Qed.

End EnumFacts.

(** The numbers from [0] to [hi] are the values of an enumeration. *)
Definition numbered {T : Type} (members : list T) (value : T -> Z)
    (hi : Z) : Prop :=
  map value members = map Z.of_nat (seq 0 (Z.to_nat hi + 1)).

Lemma numbered_lookup {T : Type} (members : list T) (value : T -> Z)
    (hi : Z) :
  (0 <= hi)%Z -> numbered members value hi ->
  (forall m, In m members ->
     enum_lookup members value (value m) = Return m)
  /\ (forall n m, enum_lookup members value n = Return m -> value m = n)
  /\ (forall n, enum_lookup members value n = Raise ValueError <->
                (n < 0 \/ hi < n)%Z).
Proof.
  intros Hhi Hnum.
  assert (Hin : forall n, In n (map value members) <-> (0 <= n <= hi)%Z).
  { intros n. rewrite Hnum, in_map_iff. split.
    - intros (k & <- & Hk). apply in_seq in Hk. lia.
    - intros Hn. exists (Z.to_nat n). split; [lia|]. apply in_seq. lia. }
  assert (Hnd : NoDup (map value members)).
  { rewrite Hnum. apply Finite.Injective_map_NoDup; [|apply seq_NoDup].
    intros a b Hab. lia. }
  split; [|split].
  - intros m Hm. now apply enum_lookup_value.
  - intros n m H. now apply (enum_lookup_sound members value n m).
  - intros n. split.
    + intros Hraise.
      destruct (Z.ltb_spec n 0) as [|Hlo]; [now left|].
      destruct (Z.ltb_spec hi n) as [|Hup]; [now right|]. exfalso.
      assert (Hn : In n (map value members)) by (apply Hin; lia).
      apply in_map_iff in Hn. destruct Hn as (m & Hm & Hmem).
      rewrite <- Hm, enum_lookup_value in Hraise by assumption.
      discriminate.
    + intros Hout. apply enum_lookup_unknown. rewrite Hin. lia.
Qed.

(** X12. In each of the five enumerations the members are numbered from
    zero without a gap, so [cls(int(m))] is [m] for every member, what
    [cls(n)] returns has the value [n], and [cls(n)] raises [ValueError]
    exactly for the numbers below zero or above the last value. *)
Theorem enumerations_decode :
  let decodes {T : Type} (members : list T) (value : T -> Z)
              (of_value : Z -> result T) (hi : Z) :=
    (forall m : T, In m members /\ of_value (value m) = Return m)
    /\ (forall n m, of_value n = Return m -> value m = n)
    /\ (forall n, of_value n = Raise ValueError <-> (n < 0 \/ hi < n)%Z) in
  decodes TemperatureUnits.members TemperatureUnits.value
    TemperatureUnits.of_value 1%Z
  /\ decodes Mode.members Mode.value Mode.of_value 4%Z
  /\ decodes FanSpeed.members FanSpeed.value FanSpeed.of_value 5%Z
  /\ decodes HorizontalSwing.members HorizontalSwing.value
       HorizontalSwing.of_value 6%Z
  /\ decodes VerticalSwing.members VerticalSwing.value
       VerticalSwing.of_value 11%Z.
Proof.
  cbv zeta.
  assert (Hgen : forall (T : Type) (members : list T) (value : T -> Z)
                   (hi : Z),
             (0 <= hi)%Z -> numbered members value hi ->
             (forall m : T, In m members) ->
             (forall m : T, In m members
                /\ enum_lookup members value (value m) = Return m)
             /\ (forall n m, enum_lookup members value n = Return m ->
                            value m = n)
             /\ (forall n, enum_lookup members value n = Raise ValueError
                           <-> (n < 0 \/ hi < n)%Z)).
  { intros T members value hi Hhi Hnum Hall.
    destruct (numbered_lookup members value hi Hhi Hnum) as (H1 & H2 & H3).
    split; [|split]; auto. }
  split; [|split; [|split; [|split]]];
    (apply Hgen; [lia|reflexivity|intros m; destruct m; cbn; tauto]).
Qed.

Section EnumOnDevice.

Context {props_enum : PropsEnum} {net_iface : nethelper.Interface}.

(** X13. A member of an enumeration that is assigned to the property it
    belongs to is read back and decoded as that member: after
    [d.mode = m], [Mode(d.mode)] is [m], and the same for the temperature
    unit, the fan speed and the two swings, whatever the send did. *)
Theorem enumeration_through_device (w : World) :
  (forall m : Mode.t,
     match mode (self (snd (set_mode (JNum (Mode.value m)) w))) with
     | Return n => Mode.of_value n = Return m
     | Raise _ => False
     end)
  /\ (forall m : TemperatureUnits.t,
       match temperature_units
               (self (snd (set_temperature_units
                             (JNum (TemperatureUnits.value m)) w))) with
       | Return n => TemperatureUnits.of_value n = Return m
       | Raise _ => False
       end)
  /\ (forall m : FanSpeed.t,
       match fan_speed
               (self (snd (set_fan_speed (JNum (FanSpeed.value m)) w))) with
       | Return n => FanSpeed.of_value n = Return m
       | Raise _ => False
       end)
  /\ (forall m : HorizontalSwing.t,
       match horizontal_swing
               (self (snd (set_horizontal_swing
                             (JNum (HorizontalSwing.value m)) w))) with
       | Return n => HorizontalSwing.of_value n = Return m
       | Raise _ => False
       end)
  /\ (forall m : VerticalSwing.t,
       match vertical_swing
               (self (snd (set_vertical_swing
                             (JNum (VerticalSwing.value m)) w))) with
       | Return n => VerticalSwing.of_value n = Return m
       | Raise _ => False
       end).
Proof.
  assert (Hread : forall (p : Props) (n : Z),
            int_getter p (self (snd (setter p (JNum n) w))) = Return n).
  { intros p n. rewrite setter_unfold. cbn [py_int].
    unfold int_getter. rewrite get_property_cached.
    pose proof (cached_after_set_property w p (JNum n) (Z.eqb_refl n)) as H.
    now apply py_eq_int_reads in H. }
  unfold mode, set_mode, temperature_units, set_temperature_units,
    fan_speed, set_fan_speed, horizontal_swing, set_horizontal_swing,
    vertical_swing, set_vertical_swing.
  repeat apply conj; intros m; rewrite Hread; destruct m; reflexivity.
Qed.

End EnumOnDevice.

(** ** The log of [GreeClimate] *)

Section GreeClimateFacts.

Import gree_climate.

Context {NetState : Type}.
Variable search_devices : NetState -> result (list DeviceInfo) * NetState.
Variable str_info : DeviceInfo -> string.

(** The two lines that one message makes for each [GreeClimate()] there
    was: one in the file, one on the stream. *)
Definition lines_for (times : nat) (msg : string) : list Line :=
  List.concat (repeat [ {| sink := ToFile "gree_climate.log"; levelno := INFO;
                      message := msg |};
                   {| sink := ToStream; levelno := INFO; message := msg |} ]
            times).

(** The messages of one search, by its outcome. *)
Definition search_messages (r : result (list DeviceInfo)) : list string :=
  "Starting Gree device discovery process" ::
  match r with
  | Return devices => map (fun d => "Found " ++ str_info d)%string devices
  | Raise _ => []
  end.

(** The process after [GreeClimate()] was called [times] times. *)
Definition constructed (times : nat) (n : NetState) : Process :=
  Nat.iter times GreeClimate_init (start n).

Lemma concat_repeat_snoc {A} (block : list A) (times : nat) :
  List.concat (repeat block times) ++ block = List.concat (repeat block (S times)).
Proof.
  induction times as [|times IH]; cbn [repeat List.concat] in *.
  - now rewrite app_nil_r.
  - now rewrite <- app_assoc, IH.
Qed.

Lemma constructed_state (times : nat) (n : NetState) :
  constructed (S times) n =
  {| logger_level := DEBUG;
     handlers := List.concat (repeat [FileHandler "gree_climate.log" DEBUG;
                                 StreamHandler DEBUG] (S times));
     written := [];
     net := n |}.
Proof.
  unfold constructed. induction times as [|times IH]; [reflexivity|].
  rewrite Nat.iter_succ, IH. unfold GreeClimate_init.
  cbn [logger_level handlers written gree_climate.net].
  now rewrite concat_repeat_snoc.
Qed.

Lemma log_info_constructed (times : nat) (msg : string)
    (lines : list Line) (n : NetState) :
  let hs := List.concat (repeat [FileHandler "gree_climate.log" DEBUG;
                            StreamHandler DEBUG] times) in
  log INFO msg
    {| logger_level := DEBUG; handlers := hs; written := lines; net := n |}
  = {| logger_level := DEBUG; handlers := hs;
       written := lines ++ lines_for times msg; net := n |}.
Proof.
  cbv zeta. unfold log. cbn [logger_level handlers written gree_climate.net].
  change (DEBUG <=? INFO)%Z with true. cbv iota. do 2 f_equal.
  unfold lines_for. induction times as [|times IH]; [reflexivity|].
  cbn [repeat List.concat app filter map handler_level handler_sink].
  change (DEBUG <=? INFO)%Z with true. cbv iota.
  cbn [map handler_sink]. now rewrite IH.
Qed.

(** X14. [search_devices] returns the devices that
    [nethelper.search_devices] found, or raises what it raised. It logs the
    starting message and then one message for each device found, in their
    order, and nothing after the start when the search raised. Since every
    [GreeClimate()] adds a file handler and a stream handler to the one
    logger of the process, each message is written once to the file and
    once to the stream for every object that was ever constructed. *)
Theorem search_devices_logs (times : nat) (n : NetState) :
  let ps := constructed (S times) n in
  let (r, n') := search_devices n in
  GreeClimate_search_devices search_devices str_info ps =
  (r,
   {| logger_level := DEBUG;
      handlers := handlers ps;
      written := flat_map (lines_for (S times)) (search_messages r);
      net := n' |})
  /\ List.length (handlers ps) = 2 * S times
  /\ List.length (flat_map (lines_for (S times)) (search_messages r))
     = 2 * S times * List.length (search_messages r).
Proof.
  cbv zeta. rewrite constructed_state.
  destruct (search_devices n) as [r n'] eqn:Hsearch.
  assert (Hlen : forall msg, List.length (lines_for (S times) msg)
                             = 2 * S times).
  { intros msg. unfold lines_for.
    generalize (S times) as k. induction k as [|k IH]; [reflexivity|].
    cbn [repeat List.concat]. rewrite length_app, IH. cbn [List.length]. lia. }
  split; [|split].
  - unfold GreeClimate_search_devices.
    rewrite log_info_constructed.
    cbn [logger_level handlers written gree_climate.net].
    rewrite Hsearch. destruct r as [devices|e].
    + f_equal. cbn [search_messages flat_map app]. clear Hsearch.
      generalize (lines_for (S times)
                    "Starting Gree device discovery process") as lines.
      induction devices as [|d devices IH]; intros lines.
      * cbn. now rewrite app_nil_r.
      * cbn [fold_left map flat_map]. rewrite log_info_constructed.
        rewrite IH. now rewrite <- app_assoc.
    + cbn. now rewrite app_nil_r.
  - cbn [handlers].
    generalize (S times) as k. induction k as [|k IH]; [reflexivity|].
    cbn [repeat List.concat]. rewrite length_app, IH. cbn [List.length]. lia.
  - generalize (search_messages r) as msgs.
    induction msgs as [|msg msgs IH]; [cbn; lia|].
    cbn [flat_map]. rewrite length_app, Hlen, IH. cbn [List.length]. lia.
Qed.

End GreeClimateFacts.

(* ================================================================== *)
(** * The tests of the protocol, replayed *)
(* ================================================================== *)

Import Examples.

(** [test_encrypt_decrypt_payload]. *)
Lemma decrypt_encrypt_round_trip_witness :
  Codec.decrypt_payload
    (Codec.encrypt_payload test_object network.GENERIC_KEY)
    network.GENERIC_KEY
  = Return test_object.
Proof.
  exact (decrypt_encrypt_round_trip test_object network.GENERIC_KEY eq_refl).
Defined.

(** [test_bind_device], and the same call with nothing answering. *)
Lemma bind_device_returns_key_witness :
  network.bind_device (answering bindok_payload network.GENERIC_KEY)
    sample_info None = Return "acbd1234"
  /\ network.bind_device silent sample_info None = Raise TimeoutError.
Proof.
  split.
  - exact (proj1 (bind_device_returns_key
                    (answering bindok_payload network.GENERIC_KEY)
                    sample_info)
             _ bindok_payload "acbd1234" eq_refl eq_refl eq_refl eq_refl
             eq_refl).
  - exact (proj2 (bind_device_returns_key silent sample_info) eq_refl).
Defined.

(** [test_request_device_status]. *)
Lemma request_state_zips_witness :
  network.request_state (answering status_payload network.GENERIC_KEY)
    ["prop-a"; "prop-b"] sample_info network.GENERIC_KEY
  = Return test_properties.
Proof.
  exact (proj1 (request_state_zips
                  (answering status_payload network.GENERIC_KEY)
                  ["prop-a"; "prop-b"] sample_info network.GENERIC_KEY
                  _ status_payload eq_refl eq_refl eq_refl)
           ["prop-a"; "prop-b"] [JStr "val-a"; JStr "val-b"]
           eq_refl eq_refl eq_refl).
Defined.

Lemma test_properties_keys : NoDup (dict_keys test_properties).
Proof.
  constructor; [simpl; intros [H|[]]; discriminate H|].
  constructor; [simpl; tauto|constructor].
Defined.

(** [test_send_and_update_device_status], and the same call to a unit that
    repeats what the command it received holds. *)
Lemma send_state_zips_witness :
  network.send_state (answering cmd_payload network.GENERIC_KEY)
    test_properties sample_info network.GENERIC_KEY
  = Return test_properties
  /\ network.send_state (echoing network.GENERIC_KEY)
       test_properties sample_info network.GENERIC_KEY
     = Return test_properties.
Proof.
  split.
  - exact (proj1 (send_state_zips
                    (answering cmd_payload network.GENERIC_KEY)
                    test_properties sample_info network.GENERIC_KEY
                    _ cmd_payload eq_refl eq_refl eq_refl)
             ["prop-a"; "prop-b"] [JStr "val-a"; JStr "val-b"]
             eq_refl eq_refl eq_refl).
  - exact (proj1 (proj2 (send_state_zips
                           (echoing network.GENERIC_KEY)
                           test_properties sample_info network.GENERIC_KEY
                           _ cmd_payload eq_refl eq_refl eq_refl))
             test_properties_keys eq_refl eq_refl eq_refl).
Defined.

(** C4 as stated fails for an acknowledgment whose lists differ in length:
    the names are [prop-a] and [prop-b], the only value is [val-a], and the
    call raises instead of returning the map that pairs them. *)
Lemma send_state_short_values_counterexample :
  network.names_field short_ack "opt" = Some ["prop-a"; "prop-b"]
  /\ network.values_field short_ack "val" = Some [JStr "val-a"]
  /\ network.send_state (answering short_ack network.GENERIC_KEY)
       test_properties sample_info network.GENERIC_KEY
     <> Return (dict_zip ["prop-a"; "prop-b"] [JStr "val-a"]).
Proof. repeat split. intros H. vm_compute in H. discriminate H. Qed.

(** The text form on a few values, and texts that [loads] accepts or
    refuses. *)
Example dumps_examples :
  string_of_list_ascii
    (Json.dumps (JArr [JNum (-12); JNum 0; JBool true; JNull; JArr []; JObj []]))
  = "[-12, 0, true, null, [], {}]"
  /\ Json.dumps (JObj [("a", JNum 1)])
     = "{"%char :: Json.dquote :: "a"%char :: Json.dquote :: Json.chars ": 1}"
  /\ string_of_list_ascii
       (Json.dumps (JStr (String (ascii_of_N 10) (String (ascii_of_N 200) "\"))))
     = String Json.dquote ("\n\u00c8\\" ++ String Json.dquote "").
Proof. repeat split. Qed.

Example loads_examples :
  Json.loads (Json.chars " [1 ,2,  [ ] ] ") = Some (JArr [JNum 1; JNum 2; JArr []])
  /\ Json.loads (Json.chars "-0") = Some (JNum 0)
  /\ Json.loads (Json.chars "[1.5]") = None
  /\ Json.loads (Json.chars "01") = None
  /\ Json.loads (Json.chars "[1,]") = None
  /\ Json.loads (Json.chars "1 2") = None.
Proof. repeat split. Qed.

(** The text that travels for [test_object] under the generic key, with the
    cipher of the examples. *)
Example encrypt_payload_test_object :
  Codec.encrypt_payload test_object network.GENERIC_KEY
  = "izJ2cXt1PXt1iTJKMDJ2cXt1PYZxfIV1Mo0WFhYWFhY=".
Proof. reflexivity. Qed.

(** Another key or a damaged text does not decrypt. *)
Example decrypt_payload_failures :
  Codec.decrypt_payload
    (Codec.encrypt_payload test_object network.GENERIC_KEY) "other"
  = Raise DecryptionError
  /\ Codec.decrypt_payload "izJ2cXt1" network.GENERIC_KEY
     = Raise DecryptionError
  /\ Codec.decrypt_payload "not base64!" network.GENERIC_KEY
     = Raise DecryptionError.
Proof. repeat split. Qed.

(** Answers that [request_state] refuses: lists of different length, and a
    payload of another type. *)
Example request_state_refusals :
  network.request_state
    (answering (JObj [("cols", JArr [JStr "prop-a"; JStr "prop-b"]);
                      ("dat", JArr [JStr "val-a"])]) "key")
    ["prop-a"; "prop-b"] sample_info "key"
  = Raise ProtocolError
  /\ network.request_state (answering bindok_payload "key")
       ["prop-a"; "prop-b"] sample_info "key"
     = Raise ProtocolError.
Proof. split; reflexivity. Qed.

(** Answers that [send_state] refuses: lists of different length, a payload
    that names a command type, and a payload without the two lists. *)
Example send_state_refusals :
  network.send_state (answering short_ack "key")
    test_properties sample_info "key"
  = Raise ProtocolError
  /\ network.send_state (answering typed_ack "key")
       test_properties sample_info "key"
     = Raise ProtocolError
  /\ network.send_state (answering status_payload "key")
       test_properties sample_info "key"
     = Raise ProtocolError
  /\ network.send_state silent test_properties sample_info "key"
     = Raise TimeoutError.
Proof. repeat split. Qed.

(* ================================================================== *)
(** * The device facade on the sample unit *)
(* ================================================================== *)


(** A device that was never bound sets its power: the call goes out with
    the key [None] and, the unit answering, the method returns. *)
Lemma set_property_without_key_witness :
  let '(r, w') := set_property POWER (JNum 1) (fresh_world true) in
  calls w' = [nethelper.SendState [("Pow", JNum 1)] sample_info None]
  /\ cached (self w') "Pow" = JNum 1
  /\ r = Return tt.
Proof.
  exact (set_property_without_key (fresh_world true) POWER (JNum 1)
           eq_refl eq_refl).
Defined.

(** C6 as stated fails for the empty string: [bind("")] does call
    [nethelper.bind_device] and stores the key that the unit hands out. *)
Lemma bind_empty_key_counterexample :
  ~ (calls (snd (bind (Some "") (fresh_world true)))
       = calls (fresh_world true)
     /\ device_key (self (snd (bind (Some "") (fresh_world true))))
        = Some "").
Proof. simpl. intros [Hcalls _]. discriminate Hcalls. Qed.

(** The sample unit, bound with a key the caller kept. *)
Definition bound_world (up : bool) : World :=
  snd (bind (Some "acbd1234") (fresh_world up)).

Lemma bind_with_key_witness :
  bind (Some "acbd1234") (fresh_world true)
  = (Return tt,
     with_self (fresh_world true)
       (with_key (self (fresh_world true)) (Some "acbd1234"))).
Proof.
  apply (proj1 (bind_with_key (fresh_world true)) "acbd1234").
  discriminate.
Defined.

Lemma update_state_replaces_cache_witness :
  let '(r, w') := update_state (bound_world true) in
  r = Return tt
  /\ calls w' =
     [nethelper.RequestState (map value Props_members) sample_info "acbd1234"]
  /\ get_property (self w') MODE = JNum 0.
Proof.
  pose proof (update_state_replaces_cache (bound_world true) "acbd1234"
                (dict_zip (map value Props_members)
                   (map (fun _ => JNum 0) (map value Props_members)))
                true eq_refl ltac:(discriminate) eq_refl) as H.
  destruct (update_state (bound_world true)) as [r w'].
  destruct H as (Hr & Hc & _ & _ & _ & Hget).
  split; [exact Hr|]. split; [exact Hc|].
  rewrite Hget. reflexivity.
Defined.

(** The unit does not answer: the send times out and the cache keeps the
    value that was never confirmed. *)
Lemma set_property_frame_witness :
  fst (set_property POWER (JNum 1) (bound_world false)) = Raise TimeoutError
  /\ cached (self (snd (set_property POWER (JNum 1) (bound_world false))))
       "Pow" = JNum 1.
Proof.
  exact (proj2 (proj2 (set_property_frame (bound_world false) POWER (JNum 1))
                  eq_refl)
           TimeoutError false eq_refl).
Defined.

(** The same through the property setter: [d.power = True] on a device that
    was never bound. *)
Example set_power_without_key :
  set_power (JBool true) (fresh_world true)
  = (Return tt,
     {| self := with_properties (Device_init sample_info)
                  (Some [("Pow", JNum 1)]);
        net := true;
        calls := [nethelper.SendState [("Pow", JNum 1)] sample_info None] |}).
Proof. reflexivity. Qed.

(** [int()] on the values a cache can hold. *)
Example py_int_examples :
  py_int (JStr " -1_000 ") = Return (-1000)%Z
  /\ py_int (JStr "1__0") = Raise ValueError
  /\ py_int (JStr "") = Raise ValueError
  /\ py_int (JBool true) = Return 1%Z
  /\ py_int JNull = Raise TypeError.
Proof. repeat split. Qed.

(** The white space of [int()]: a no-break space (U+00A0) and a next line
    (U+0085) are skipped, a file separator (U+001C) is not, and no white
    space may stand between the sign and the digits. *)
Example py_int_white_space :
  py_int (JStr (String (ascii_of_N 160) "5")) = Return 5%Z
  /\ py_int (JStr (String (ascii_of_N 133) "5")) = Return 5%Z
  /\ py_int (JStr (String (ascii_of_N 9) ("+5" ++ String (ascii_of_N 10) "")))
     = Return 5%Z
  /\ py_int (JStr (String (ascii_of_N 28) "5")) = Raise ValueError
  /\ py_int (JStr (String (ascii_of_N 31) "5")) = Raise ValueError
  /\ py_int (JStr "- 5") = Raise ValueError
  /\ py_int (JStr "_5") = Raise ValueError
  /\ py_int (JStr "007") = Return 7%Z.
Proof. repeat split. Qed.

(** The limit on the digits of a numeral: 4300 digits are converted, 4301
    are not, whatever their value. *)
Example py_int_digit_limit :
  py_int (JStr (string_of_list_ascii (repeat "0"%char 4300))) = Return 0%Z
  /\ py_int (JStr (string_of_list_ascii (repeat "0"%char 4301)))
     = Raise ValueError.
Proof. split; vm_compute; reflexivity. Qed.

(* ================================================================== *)
(** * More on the sample unit *)
(* ================================================================== *)

(** The sample unit, its key known, does not answer a status request. *)
Lemma update_state_request_fails_witness :
  update_state (bound_world false)
  = (Raise TimeoutError,
     {| self := self (bound_world false); net := false;
        calls := [nethelper.RequestState (map value Props_members)
                    sample_info "acbd1234"] |}).
Proof.
  exact (update_state_request_fails (bound_world false) "acbd1234"
           TimeoutError false eq_refl ltac:(discriminate) eq_refl).
Defined.

(** [d.mode = "3"] while the unit does not answer: the mode reads as 3. *)
Lemma setter_then_getter_witness :
  mode (self (snd (set_mode (JStr "3") (bound_world false)))) = Return 3%Z
  /\ bool_getter MODE (self (snd (set_mode (JStr "3") (bound_world false))))
     = Return true.
Proof.
  exact (setter_then_getter (bound_world false) MODE (JStr "3") 3 eq_refl).
Defined.

(** Setting the mode leaves the power that was set before. *)
Lemma setter_keeps_other_properties_witness :
  let w := snd (set_power (JBool true) (bound_world true)) in
  power (self (snd (set_mode (JNum 2) w))) = Return true.
Proof.
  cbv zeta.
  assert (Hne : value POWER <> value MODE) by (cbn; discriminate).
  pose proof (setter_keeps_other_properties
                (snd (set_power (JBool true) (bound_world true)))
                MODE POWER (JNum 2) Hne) as [_ [_ [_ H]]].
  unfold power, set_mode. rewrite H. reflexivity.
Defined.

(** The unit does not answer, the value is set a second time: nothing is
    sent again. *)
Lemma set_property_twice_witness :
  let w1 := snd (set_property POWER (JNum 1) (bound_world false)) in
  fst (set_property POWER (JNum 1) (bound_world false)) = Raise TimeoutError
  /\ set_property POWER (JNum 1) w1 = (Return tt, w1).
Proof.
  split; [reflexivity|].
  exact (set_property_twice (bound_world false) POWER (JNum 1) eq_refl).
Defined.

(** A device that knows its power only. *)
Definition power_only : Device :=
  with_properties (Device_init sample_info) (Some [("Pow", JNum 1)]).

Lemma getters_of_missing_name_witness :
  get_property power_only MODE = JNull
  /\ bool_getter MODE power_only = Return false
  /\ mode power_only = Raise TypeError.
Proof. exact (getters_of_missing_name power_only MODE eq_refl). Defined.

(** A second binding fails: the key of the first stays. *)
Lemma bind_device_fails_witness :
  bind None (bound_world false)
  = (Raise TimeoutError,
     {| self := self (bound_world false); net := false;
        calls := [nethelper.BindDevice sample_info] |})
  /\ device_key (self (bound_world false)) = Some "acbd1234".
Proof.
  split; [|reflexivity].
  exact (bind_device_fails (bound_world false) None TimeoutError false
           eq_refl eq_refl).
Defined.

(** A device that is never bound: the update is refused, the two
    assignments go out without a key. *)
Lemma run_without_bind_witness :
  let ops := [device_runs.UpdateState;
              device_runs.Assign POWER (JBool true);
              device_runs.SetProperty MODE (JNum 2)] in
  device_key (self (device_runs.run ops (fresh_world true))) = None
  /\ calls (device_runs.run ops (fresh_world true))
     = [nethelper.SendState [("Pow", JNum 1)] sample_info None;
        nethelper.SendState [("Mod", JNum 2)] sample_info None].
Proof.
  cbv zeta. split; [|reflexivity].
  exact (proj1 (run_without_bind
                  [device_runs.UpdateState;
                   device_runs.Assign POWER (JBool true);
                   device_runs.SetProperty MODE (JNum 2)]
                  (fresh_world true) eq_refl)).
Defined.

(** Two [GreeClimate] objects and a search that finds the sample unit: four
    handlers, and each of the two messages is written four times. *)
Example search_devices_twice_constructed :
  let search := fun n : unit => (Return [sample_info], n) in
  let ps := gree_climate.GreeClimate_init
              (gree_climate.GreeClimate_init (gree_climate.start tt)) in
  let (r, ps') := gree_climate.GreeClimate_search_devices search mac ps in
  r = Return [sample_info]
  /\ List.length (gree_climate.handlers ps') = 4
  /\ map gree_climate.message (gree_climate.written ps')
     = repeat "Starting Gree device discovery process" 4
       ++ repeat "Found f4911e7aca59" 4.
Proof. repeat split. Qed.
